(** * subctl: deploying Submariner and cleaning up a generic cluster

    A shallow embedding of package [deploy] (the [Submariner] entry point,
    [populateSubmarinerSpec] and its two string helpers) and of
    [cleanup.GenericCluster], with the properties the specification states
    about them.

    Go strings and byte slices are byte sequences: both are modelled by
    [string], whose characters are the 256 byte values.  Go's [int] and
    [uint64] values are modelled by [Z]; no arithmetic is done on them.
    A Go map is a [gmap]; reading a missing key gives the zero value. *)

From Stdlib Require Import ZArith NArith Lia Ascii.
From stdpp Require Import base list strings gmap.

Local Open Scope Z_scope.

(** * Part I: the model *)

(** ** Package [strings] of the Go standard library

    Only what the program calls: [strings.Index] and [strings.Split], and the
    slice expressions [s[i:]] and [s[:i]]. *)

Module strings.

(** [len(s)] *)
Definition len (s : string) : Z := Z.of_nat (String.length s).

(** [strings.HasPrefix(s, prefix)] *)
Fixpoint HasPrefix (s prefix : string) {struct prefix} : bool :=
  match prefix, s with
  | "", _ => true
  | String _ _, "" => false
  | String c prefix', String d s' =>
      if Stdlib.Strings.Ascii.eqb c d then HasPrefix s' prefix' else false
  end.

(** [strings.Index(s, substr)]: the index of the first instance of
    [substr] in [s], or [-1] if [substr] is not present in [s]. *)
Fixpoint Index (s substr : string) : Z :=
  if HasPrefix s substr then 0
  else match s with
       | "" => -1
       | String _ s' =>
           let i := Index s' substr in
           if i <? 0 then -1 else i + 1
       end.

(** [s[n:]] and [s[:n]] for [0 <= n <= len(s)]; outside that range Go
    panics.  The program only slices at positions [strings.Index] has
    returned, which are in range ([Index_slice_in_range]). *)
Fixpoint drop (n : nat) (s : string) : string :=
  match n, s with
  | O, _ => s
  | S _, "" => ""
  | S n', String _ s' => drop n' s'
  end.

Fixpoint take (n : nat) (s : string) : string :=
  match n, s with
  | O, _ => ""
  | S _, "" => ""
  | S n', String c s' => String c (take n' s')
  end.

Definition slice_from (s : string) (i : Z) : string := drop (Z.to_nat i) s.
Definition slice_to (s : string) (i : Z) : string := take (Z.to_nat i) s.

(** The loop of [genSplit] for a non-empty separator and no limit on the
    number of pieces: cut at the first instance of [sep], continue after
    it, and end with what is left when [sep] no longer occurs.  Each round
    removes at least [len(sep)] bytes, so [len(s)] rounds are enough
    ([genSplit_fuel]). *)
Fixpoint genSplit (fuel : nat) (s sep : string) : list string :=
  let m := Index s sep in
  if m <? 0 then [s]
  else match fuel with
       | O => [s]
       | S fuel' =>
           slice_to s m :: genSplit fuel' (slice_from s (m + len sep)) sep
       end.

(** [strings.Split(s, sep)] for [sep <> ""].  (With an empty separator Go
    splits after each UTF-8 sequence instead; the program never does that,
    its only separator is the constant ["/"].) *)
Definition Split (s sep : string) : list string :=
  genSplit (String.length s) s sep.

End strings.

(** ** Package [encoding/base64]: [StdEncoding.EncodeToString] *)

Module base64.

Definition encodeStd : string :=
  "ABCDEFGHIJKLMNOPQRSTUVWXYZabcdefghijklmnopqrstuvwxyz0123456789+/".

(** The character of the alphabet for a 6-bit value. *)
Definition enc (v : N) : ascii :=
  match String.get (N.to_nat (N.land v 63)) encodeStd with
  | Some c => c
  | None => "="%char
  end.

Definition byte (c : ascii) : N := N_of_ascii c.

(** Three source bytes give four characters; a remainder of one or two
    bytes is padded with ['='] to a full group of four. *)
Fixpoint EncodeToString (src : string) : string :=
  match src with
  | "" => ""
  | String a "" =>
      let val := N.shiftl (byte a) 16 in
      String (enc (N.shiftr val 18)) (String (enc (N.shiftr val 12)) "==")
  | String a (String b "") =>
      let val := N.lor (N.shiftl (byte a) 16) (N.shiftl (byte b) 8) in
      String (enc (N.shiftr val 18)) (String (enc (N.shiftr val 12))
        (String (enc (N.shiftr val 6)) "="))
  | String a (String b (String c rest)) =>
      let val :=
        N.lor (N.lor (N.shiftl (byte a) 16) (N.shiftl (byte b) 8)) (byte c) in
      String (enc (N.shiftr val 18)) (String (enc (N.shiftr val 12))
        (String (enc (N.shiftr val 6)) (String (enc val)
          (EncodeToString rest))))
  end.

End base64.

(** ** The records the deployment reads and writes

    The functions take these records by pointer and dereference them
    without a nil check; the model passes the pointed-to records. *)

(** [v1.Secret] of [k8s.io/api/core/v1]: the object's name and its data. *)
Module Secret.
Record t := mk {
  Name : string;
  Data : gmap string string;
}.
(** [secret.Data[key]]: the empty (nil) byte slice when [key] is absent. *)
Definition Data_at (s : t) (key : string) : string :=
  default "" (Data s !! key).
End Secret.

(** [broker.Info].  [IsServiceDiscoveryEnabled] stands for the result of the
    method of that name, whose body is in package [broker]. *)
Module Info.
Record t := mk {
  BrokerURL : string;
  IPSecPSK : Secret.t;
  IsServiceDiscoveryEnabled : bool;
}.
End Info.

(** [globalnet.Config], the field that is read here. *)
Module Config.
Record t := mk {
  GlobalCIDR : string;
}.
End Config.

(** [image.RepositoryInfo] *)
Module RepositoryInfo.
Record t := mk {
  Name : string;
  Version : string;
  Overrides : gmap string string;
}.
End RepositoryInfo.

(** [deploy.SubmarinerOptions].  A slice is [None] when it is nil. *)
Module SubmarinerOptions.
Record t := mk {
  PreferredServer : bool;
  ForceUDPEncaps : bool;
  NATTraversal : bool;
  IPSecDebug : bool;
  SubmarinerDebug : bool;
  AirGappedDeployment : bool;
  LoadBalancerEnabled : bool;
  HealthCheckEnabled : bool;
  BrokerK8sInsecure : bool;
  NATTPort : Z;
  HealthCheckInterval : Z;
  HealthCheckMaxPacketLossCount : Z;
  ClusterID : string;
  CableDriver : string;
  CoreDNSCustomConfigMap : string;
  Repository : string;
  ImageVersion : string;
  ServiceCIDR : string;
  ClusterCIDR : string;
  CustomDomains : option (list string);
}.
End SubmarinerOptions.

(** [len(s)] of a slice: 0 for the nil slice. *)
Definition slice_len {A : Type} (s : option (list A)) : Z :=
  match s with
  | None => 0
  | Some l => Z.of_nat (length l)
  end.

(** [operatorv1alpha1.HealthCheckSpec] *)
Module HealthCheckSpec.
Record t := mk {
  Enabled : bool;
  IntervalSeconds : Z;
  MaxPacketLossCount : Z;
}.
End HealthCheckSpec.

(** [operatorv1alpha1.CoreDNSCustomConfig] *)
Module CoreDNSCustomConfig.
Record t := mk {
  ConfigMapName : string;
  Namespace : string;
}.
End CoreDNSCustomConfig.

(** [operatorv1alpha1.SubmarinerSpec], the fields [populateSubmarinerSpec]
    writes; a pointer field is [None] when it is nil. *)
Module SubmarinerSpec.
Record t := mk {
  Repository : string;
  Version : string;
  CeIPSecNATTPort : Z;
  CeIPSecDebug : bool;
  CeIPSecForceUDPEncaps : bool;
  CeIPSecPreferredServer : bool;
  CeIPSecPSK : string;
  CeIPSecPSKSecret : string;
  BrokerK8sCA : string;
  BrokerK8sRemoteNamespace : string;
  BrokerK8sApiServerToken : string;
  BrokerK8sApiServer : string;
  BrokerK8sSecret : string;
  BrokerK8sInsecure : bool;
  Broker : string;
  NatEnabled : bool;
  Debug : bool;
  ClusterID : string;
  ServiceCIDR : string;
  ClusterCIDR : string;
  Namespace : string;
  CableDriver : string;
  ServiceDiscoveryEnabled : bool;
  ImageOverrides : gmap string string;
  AirGappedDeployment : bool;
  LoadBalancerEnabled : bool;
  ConnectionHealthCheck : option HealthCheckSpec.t;
  GlobalCIDR : string;
  CoreDNSCustomConfig : option CoreDNSCustomConfig.t;
  CustomDomains : option (list string);
}.

(** The three assignments made after the struct literal. *)
Definition set_GlobalCIDR (v : string) (s : t) : t :=
  mk (Repository s) (Version s) (CeIPSecNATTPort s) (CeIPSecDebug s)
     (CeIPSecForceUDPEncaps s) (CeIPSecPreferredServer s) (CeIPSecPSK s)
     (CeIPSecPSKSecret s) (BrokerK8sCA s) (BrokerK8sRemoteNamespace s)
     (BrokerK8sApiServerToken s) (BrokerK8sApiServer s) (BrokerK8sSecret s)
     (BrokerK8sInsecure s) (Broker s) (NatEnabled s) (Debug s) (ClusterID s)
     (ServiceCIDR s) (ClusterCIDR s) (Namespace s) (CableDriver s)
     (ServiceDiscoveryEnabled s) (ImageOverrides s) (AirGappedDeployment s)
     (LoadBalancerEnabled s) (ConnectionHealthCheck s)
     v (CoreDNSCustomConfig s) (CustomDomains s).

Definition set_CoreDNSCustomConfig (v : option CoreDNSCustomConfig.t) (s : t)
  : t :=
  mk (Repository s) (Version s) (CeIPSecNATTPort s) (CeIPSecDebug s)
     (CeIPSecForceUDPEncaps s) (CeIPSecPreferredServer s) (CeIPSecPSK s)
     (CeIPSecPSKSecret s) (BrokerK8sCA s) (BrokerK8sRemoteNamespace s)
     (BrokerK8sApiServerToken s) (BrokerK8sApiServer s) (BrokerK8sSecret s)
     (BrokerK8sInsecure s) (Broker s) (NatEnabled s) (Debug s) (ClusterID s)
     (ServiceCIDR s) (ClusterCIDR s) (Namespace s) (CableDriver s)
     (ServiceDiscoveryEnabled s) (ImageOverrides s) (AirGappedDeployment s)
     (LoadBalancerEnabled s) (ConnectionHealthCheck s)
     (GlobalCIDR s) v (CustomDomains s).

Definition set_CustomDomains (v : option (list string)) (s : t) : t :=
  mk (Repository s) (Version s) (CeIPSecNATTPort s) (CeIPSecDebug s)
     (CeIPSecForceUDPEncaps s) (CeIPSecPreferredServer s) (CeIPSecPSK s)
     (CeIPSecPSKSecret s) (BrokerK8sCA s) (BrokerK8sRemoteNamespace s)
     (BrokerK8sApiServerToken s) (BrokerK8sApiServer s) (BrokerK8sSecret s)
     (BrokerK8sInsecure s) (Broker s) (NatEnabled s) (Debug s) (ClusterID s)
     (ServiceCIDR s) (ClusterCIDR s) (Namespace s) (CableDriver s)
     (ServiceDiscoveryEnabled s) (ImageOverrides s) (AirGappedDeployment s)
     (LoadBalancerEnabled s) (ConnectionHealthCheck s)
     (GlobalCIDR s) (CoreDNSCustomConfig s) v.
End SubmarinerSpec.

(** ** Package [constants]

    [constants.OperatorNamespace] is declared in [internal/constants]; the
    deployment only passes it on, so its value is left open. *)
Class Constants := {
  OperatorNamespace : string;
}.

(** ** Package [deploy]: the pure part *)

Definition removeSchemaPrefix (brokerURL : string) : string :=
  let idx := strings.Index brokerURL "://" in
  if 0 <=? idx then
    (* Submariner doesn't work with a schema prefix *)
    strings.slice_from brokerURL (idx + 3)
  else brokerURL.

(** [paramList[i]]; the two uses below are guarded by
    [len(paramList) > 1]. *)
Definition at_index (l : list string) (i : nat) : string := nth i l "".

(** The named results [namespace] and [name] start at the zero value. *)
Definition getCustomCoreDNSParams (corednsCustomConfigMap : string)
  : string * string :=
  let namespace := "" in
  let name := "" in
  if bool_decide (corednsCustomConfigMap <> "") then
    let name := corednsCustomConfigMap in
    let paramList := strings.Split corednsCustomConfigMap "/" in
    if 1 <? Z.of_nat (length paramList) then
      let namespace := at_index paramList 0 in
      let name := at_index paramList 1 in
      (namespace, name)
    else (namespace, name)
  else (namespace, name).

Definition populateSubmarinerSpec `{Constants}
    (options : SubmarinerOptions.t) (brokerInfo : Info.t)
    (brokerSecret pskSecret : Secret.t) (netconfig : Config.t)
    (repositoryInfo : RepositoryInfo.t) : SubmarinerSpec.t :=
  let brokerURL := removeSchemaPrefix (Info.BrokerURL brokerInfo) in
  let submarinerSpec := {|
    SubmarinerSpec.Repository := RepositoryInfo.Name repositoryInfo;
    SubmarinerSpec.Version := RepositoryInfo.Version repositoryInfo;
    SubmarinerSpec.CeIPSecNATTPort := SubmarinerOptions.NATTPort options;
    SubmarinerSpec.CeIPSecDebug := SubmarinerOptions.IPSecDebug options;
    SubmarinerSpec.CeIPSecForceUDPEncaps :=
      SubmarinerOptions.ForceUDPEncaps options;
    SubmarinerSpec.CeIPSecPreferredServer :=
      SubmarinerOptions.PreferredServer options;
    SubmarinerSpec.CeIPSecPSK :=
      base64.EncodeToString (Secret.Data_at (Info.IPSecPSK brokerInfo) "psk");
    SubmarinerSpec.CeIPSecPSKSecret := Secret.Name pskSecret;
    SubmarinerSpec.BrokerK8sCA :=
      base64.EncodeToString (Secret.Data_at brokerSecret "ca.crt");
    SubmarinerSpec.BrokerK8sRemoteNamespace :=
      Secret.Data_at brokerSecret "namespace";
    SubmarinerSpec.BrokerK8sApiServerToken :=
      Secret.Data_at brokerSecret "token";
    SubmarinerSpec.BrokerK8sApiServer := brokerURL;
    SubmarinerSpec.BrokerK8sSecret := Secret.Name brokerSecret;
    SubmarinerSpec.BrokerK8sInsecure :=
      SubmarinerOptions.BrokerK8sInsecure options;
    SubmarinerSpec.Broker := "k8s";
    SubmarinerSpec.NatEnabled := SubmarinerOptions.NATTraversal options;
    SubmarinerSpec.Debug := SubmarinerOptions.SubmarinerDebug options;
    SubmarinerSpec.ClusterID := SubmarinerOptions.ClusterID options;
    SubmarinerSpec.ServiceCIDR := SubmarinerOptions.ServiceCIDR options;
    SubmarinerSpec.ClusterCIDR := SubmarinerOptions.ClusterCIDR options;
    SubmarinerSpec.Namespace := OperatorNamespace;
    SubmarinerSpec.CableDriver := SubmarinerOptions.CableDriver options;
    SubmarinerSpec.ServiceDiscoveryEnabled :=
      Info.IsServiceDiscoveryEnabled brokerInfo;
    SubmarinerSpec.ImageOverrides := RepositoryInfo.Overrides repositoryInfo;
    SubmarinerSpec.AirGappedDeployment :=
      SubmarinerOptions.AirGappedDeployment options;
    SubmarinerSpec.LoadBalancerEnabled :=
      SubmarinerOptions.LoadBalancerEnabled options;
    SubmarinerSpec.ConnectionHealthCheck := Some {|
      HealthCheckSpec.Enabled := SubmarinerOptions.HealthCheckEnabled options;
      HealthCheckSpec.IntervalSeconds :=
        SubmarinerOptions.HealthCheckInterval options;
      HealthCheckSpec.MaxPacketLossCount :=
        SubmarinerOptions.HealthCheckMaxPacketLossCount options;
    |};
    SubmarinerSpec.GlobalCIDR := "";
    SubmarinerSpec.CoreDNSCustomConfig := None;
    SubmarinerSpec.CustomDomains := None;
  |} in
  let submarinerSpec :=
    if bool_decide (Config.GlobalCIDR netconfig <> "") then
      SubmarinerSpec.set_GlobalCIDR (Config.GlobalCIDR netconfig)
        submarinerSpec
    else submarinerSpec in
  let submarinerSpec :=
    if bool_decide (SubmarinerOptions.CoreDNSCustomConfigMap options <> "")
    then
      let '(namespace, name) :=
        getCustomCoreDNSParams
          (SubmarinerOptions.CoreDNSCustomConfigMap options) in
      SubmarinerSpec.set_CoreDNSCustomConfig
        (Some {| CoreDNSCustomConfig.ConfigMapName := name;
                 CoreDNSCustomConfig.Namespace := namespace |})
        submarinerSpec
    else submarinerSpec in
  let submarinerSpec :=
    if 0 <? slice_len (SubmarinerOptions.CustomDomains options) then
      SubmarinerSpec.set_CustomDomains
        (SubmarinerOptions.CustomDomains options) submarinerSpec
    else submarinerSpec in
  submarinerSpec.

(** ** Errors

    A Go [error] value is [None] when it is nil.  An error is either
    created with a text or wraps another error with a message, as
    [errors.Wrapf] does. *)

Inductive error : Type :=
| errors_New (text : string)
| errors_Wrap (cause : error) (message : string).

(** [err.Error()] *)
Fixpoint error_text (err : error) : string :=
  match err with
  | errors_New text => text
  | errors_Wrap cause message => message +:+ ": " +:+ error_text cause
  end.

(** ** The world outside the program

    The clusters, the terminal the reporter writes to, and the handles the
    program only passes on are opaque. *)

Class Handles := {
  World : Type;
  context_Context : Type;
  kubernetes_Interface : Type;
  controller_Client : Type;
  cluster_Info : Type;
}.

(** Every call that leaves the program is recorded. *)
Inductive Call `{Handles} : Type :=
| secret_Ensure_call (namespace : string) (psk : Secret.t)
| submarinercr_Ensure_call (namespace : string) (spec : SubmarinerSpec.t)
| reporter_Error_call (err : option error) (message : string)
| reporter_End_call
| RunOnCluster_call (clusterInfo : cluster_Info)
| Cleanup_call.

Definition is_secret_Ensure `{Handles} (c : Call) : bool :=
  match c with secret_Ensure_call _ _ => true | _ => false end.

Definition is_submarinercr_Ensure `{Handles} (c : Call) : bool :=
  match c with submarinercr_Ensure_call _ _ => true | _ => false end.

Definition is_RunOnCluster `{Handles} (c : Call) : bool :=
  match c with RunOnCluster_call _ => true | _ => false end.

(** How often the calls selected by [p] occur in a log. *)
Definition calls `{Handles} (p : Call -> bool) (log : list Call) : nat :=
  length (List.filter p log).

(** A computation transforms the world and logs the calls it makes, in
    order. *)
Definition M `{Handles} (A : Type) : Type := World -> A * World * list Call.

#[export] Instance M_ret `{Handles} : MRet M :=
  fun A a w => (a, w, []).

#[export] Instance M_bind `{Handles} : MBind M :=
  fun A B f m w =>
    let '(a, w1, log1) := m w in
    let '(b, w2, log2) := f a w1 in
    (b, w2, log1 ++ log2).

(** One call of an operation of the outside world. *)
Definition call `{Handles} {A : Type} (c : Call) (op : World -> A * World)
  : M A :=
  fun w => let '(a, w') := op w in (a, w', [c]).

Definition result `{Handles} {A : Type} (r : A * World * list Call) : A :=
  r.1.1.
Definition world_after `{Handles} {A : Type} (r : A * World * list Call)
  : World := r.1.2.
Definition log_of `{Handles} {A : Type} (r : A * World * list Call)
  : list Call := r.2.

(** [client.Producer], the two methods used. *)
Module Producer.
Record t `{Handles} := mk {
  ForKubernetes : kubernetes_Interface;
  ForGeneral : controller_Client;
}.
End Producer.

(** [reporter.Interface], the two methods used.  An implementation is a
    pair of operations on the world.  ([End_] is the method [End], which
    cannot keep its name here.) *)
Module Reporter.
Record t `{Handles} := mk {
  Error : option error -> string -> World -> option error * World;
  End_ : World -> unit * World;
}.
End Reporter.

(** The contract of [Error] the two entry points rely on for their result:
    a nil error is passed through and nothing is done; any other error is
    returned wrapped with the supplied message (and reported as a failure,
    which is an effect on the world and left open). *)
Definition reporter_contract `{Handles} (status : Reporter.t) : Prop :=
  (forall message w, Reporter.Error status None message w = (None, w)) /\
  (forall err message w,
     (Reporter.Error status (Some err) message w).1
     = Some (errors_Wrap err message)).

(** [api.GatewayDeployer] of cloud-prepare, the method used. *)
Module GatewayDeployer.
Record t `{Handles} := mk {
  Cleanup : Reporter.t -> World -> option error * World;
}.
End GatewayDeployer.

(** The functions of other packages the two entry points call:
    [secret.Ensure], [submarinercr.Ensure] and [generic.RunOnCluster].  Their
    bodies are not part of this development; any behaviour is allowed.
    [RunOnCluster] receives a function and may run it, so it is a
    computation itself. *)
Class Externals `{Handles} := {
  ensure_secret :
    context_Context -> kubernetes_Interface -> string -> Secret.t ->
    World -> (error + Secret.t) * World;
  ensure_submarinercr :
    context_Context -> controller_Client -> string -> SubmarinerSpec.t ->
    World -> option error * World;
  run_on_cluster :
    cluster_Info -> Reporter.t ->
    (GatewayDeployer.t -> Reporter.t -> M (option error)) ->
    M (option error);
}.

Module secret.
Definition Ensure `{Externals} (ctx : context_Context)
    (kubeClient : kubernetes_Interface) (namespace : string)
    (psk : Secret.t) : M (error + Secret.t) :=
  call (secret_Ensure_call namespace psk)
       (ensure_secret ctx kubeClient namespace psk).
End secret.

Module submarinercr.
Definition Ensure `{Externals} (ctx : context_Context)
    (client : controller_Client) (namespace : string)
    (spec : SubmarinerSpec.t) : M (option error) :=
  call (submarinercr_Ensure_call namespace spec)
       (ensure_submarinercr ctx client namespace spec).
End submarinercr.

Module generic.
Definition RunOnCluster `{Externals} (clusterInfo : cluster_Info)
    (status : Reporter.t)
    (function : GatewayDeployer.t -> Reporter.t -> M (option error))
  : M (option error) :=
  fun w =>
    let '(err, w', log) := run_on_cluster clusterInfo status function w in
    (err, w', RunOnCluster_call clusterInfo :: log).
End generic.

(** [status.Error(err, message)] and [status.End()] *)
Definition status_Error `{Handles} (status : Reporter.t)
    (err : option error) (message : string) : M (option error) :=
  call (reporter_Error_call err message) (Reporter.Error status err message).

Definition status_End `{Handles} (status : Reporter.t) : M unit :=
  call reporter_End_call (Reporter.End_ status).

(** [gwDeployer.Cleanup(status)] *)
Definition gwDeployer_Cleanup `{Handles} (gwDeployer : GatewayDeployer.t)
    (status : Reporter.t) : M (option error) :=
  call Cleanup_call (GatewayDeployer.Cleanup gwDeployer status).

(** [defer d]: [d] runs when the function returns, after the returned value
    has been computed. *)
Definition defer `{Handles} {A : Type} (d : M unit) (body : M A) : M A :=
  r ← body; _ ← d; mret r.

(** ** Package [deploy]: [Submariner] *)

Definition Submariner `{Externals} `{Constants}
    (ctx : context_Context) (clientProducer : Producer.t)
    (options : SubmarinerOptions.t) (brokerInfo : Info.t)
    (brokerSecret : Secret.t) (netconfig : Config.t)
    (repositoryInfo : RepositoryInfo.t) (status : Reporter.t)
  : M (option error) :=
  r ← secret.Ensure ctx (Producer.ForKubernetes clientProducer)
        OperatorNamespace (Info.IPSecPSK brokerInfo);
  match r with
  | inl err => status_Error status (Some err)
                 "Error creating PSK secret for cluster"
  | inr pskSecret =>
      let submarinerSpec :=
        populateSubmarinerSpec options brokerInfo brokerSecret pskSecret
          netconfig repositoryInfo in
      err ← submarinercr.Ensure ctx (Producer.ForGeneral clientProducer)
              OperatorNamespace submarinerSpec;
      match err with
      | Some e => status_Error status (Some e) "Submariner deployment failed"
      | None => mret None
      end
  end.

(** ** Package [cleanup]: [GenericCluster] *)

(** The function literal passed to [generic.RunOnCluster]. *)
Definition cleanup_function `{Handles} (gwDeployer : GatewayDeployer.t)
    (status : Reporter.t) : M (option error) :=
  gwDeployer_Cleanup gwDeployer status.

Definition GenericCluster `{Externals} (clusterInfo : cluster_Info)
    (status : Reporter.t) : M (option error) :=
  defer (status_End status)
    (err ← generic.RunOnCluster clusterInfo status cleanup_function;
     status_Error status err "Failed to cleanup generic K8s cluster").

(** ** Notions the properties are stated with *)

(** [sub] occurs in [s]. *)
Definition contains (s sub : string) : Prop :=
  exists pre post, s = pre +:+ sub +:+ post.

(** How often the byte [c] occurs in [s]. *)
Fixpoint count_byte (c : ascii) (s : string) : nat :=
  match s with
  | "" => 0
  | String d s' =>
      ((if Stdlib.Strings.Ascii.eqb c d then 1 else 0) + count_byte c s')%nat
  end.

(** [pre] is what stands before the first instance of [sub] in [s] and
    [post] what stands after it. *)
Definition first_instance (s sub pre post : string) : Prop :=
  s = pre +:+ sub +:+ post /\
  forall pre' post',
    s = pre' +:+ sub +:+ post' ->
    (String.length pre <= String.length pre')%nat.

(** ** Proof automation *)

(** The three conditional assignments of [populateSubmarinerSpec], one case
    each. *)
Ltac populate_cases :=
  unfold populateSubmarinerSpec;
  destruct (getCustomCoreDNSParams _) as [namespace name];
  repeat case_bool_decide;
  destruct (0 <? slice_len _);
  try reflexivity.

(** ** A small world to run the model in

    The world is the list of lines written so far, by the clusters and by
    the reporter.  A secret without a name cannot be created, a Submariner
    resource without a cluster ID cannot be applied, and a cluster without a
    name cannot be reached. *)

Module Scenario.

#[export] Instance handles : Handles := {|
  World := list string;
  context_Context := unit;
  kubernetes_Interface := unit;
  controller_Client := unit;
  cluster_Info := string;
|}.

#[export] Instance constants : Constants := {|
  OperatorNamespace := "submariner-operator";
|}.

(** A reporter in the way of admiral's adapter: an error is wrapped,
    written as a failure and returned; nil is passed through. *)
Definition terminal : Reporter.t := {|
  Reporter.Error := fun err message (w : World) =>
    match err with
    | None => (None, w)
    | Some e =>
        let e' := errors_Wrap e message in
        (Some e', w ++ ["failure: " +:+ error_text e'])
    end;
  Reporter.End_ := fun w : World => (tt, w);
|}.

Definition deployer : GatewayDeployer.t := {|
  GatewayDeployer.Cleanup := fun _ (w : World) =>
    (None, w ++ ["gateway cleaned up"]);
|}.

#[export] Instance externals : Externals := {|
  ensure_secret := fun _ _ namespace psk (w : World) =>
    if bool_decide (Secret.Name psk = "")
    then (inl (errors_New "secret has no name"), w)
    else (inr psk, w ++ ["secret " +:+ namespace +:+ "/" +:+ Secret.Name psk]);
  ensure_submarinercr := fun _ _ namespace spec (w : World) =>
    if bool_decide (SubmarinerSpec.ClusterID spec = "")
    then (Some (errors_New "cluster ID is empty"), w)
    else (None, w ++ ["submariner " +:+ namespace +:+ "/"
                        +:+ SubmarinerSpec.ClusterID spec]);
  run_on_cluster := fun clusterInfo status function (w : World) =>
    if bool_decide (clusterInfo = "")
    then (Some (errors_New "cluster has no name"), w, [])
    else function deployer status w;
|}.

Definition producer : Producer.t := {|
  Producer.ForKubernetes := tt;
  Producer.ForGeneral := tt;
|}.

Definition options (clusterID : string) : SubmarinerOptions.t := {|
  SubmarinerOptions.PreferredServer := false;
  SubmarinerOptions.ForceUDPEncaps := false;
  SubmarinerOptions.NATTraversal := true;
  SubmarinerOptions.IPSecDebug := false;
  SubmarinerOptions.SubmarinerDebug := false;
  SubmarinerOptions.AirGappedDeployment := false;
  SubmarinerOptions.LoadBalancerEnabled := false;
  SubmarinerOptions.HealthCheckEnabled := false;
  SubmarinerOptions.BrokerK8sInsecure := false;
  SubmarinerOptions.NATTPort := 4500;
  SubmarinerOptions.HealthCheckInterval := 1;
  SubmarinerOptions.HealthCheckMaxPacketLossCount := 5;
  SubmarinerOptions.ClusterID := clusterID;
  SubmarinerOptions.CableDriver := "libreswan";
  SubmarinerOptions.CoreDNSCustomConfigMap := "kube-system/coredns-custom";
  SubmarinerOptions.Repository := "quay.io/submariner";
  SubmarinerOptions.ImageVersion := "devel";
  SubmarinerOptions.ServiceCIDR := "10.96.0.0/16";
  SubmarinerOptions.ClusterCIDR := "10.244.0.0/16";
  SubmarinerOptions.CustomDomains := Some [];
|}.

Definition psk (name : string) : Secret.t := {|
  Secret.Name := name;
  Secret.Data := {[ "psk" := "0123456789abcdef" ]};
|}.

Definition brokerInfo (pskName : string) : Info.t := {|
  Info.BrokerURL := "https://broker.example.com:6443";
  Info.IPSecPSK := psk pskName;
  Info.IsServiceDiscoveryEnabled := true;
|}.

Definition brokerSecret : Secret.t := {|
  Secret.Name := "cluster1-token";
  Secret.Data := {[ "ca.crt" := "CA"; "namespace" := "submariner-k8s-broker";
                    "token" := "t0k3n" ]};
|}.

Definition netconfig : Config.t := {| Config.GlobalCIDR := "" |}.

Definition repositoryInfo : RepositoryInfo.t := {|
  RepositoryInfo.Name := "quay.io/submariner";
  RepositoryInfo.Version := "devel";
  RepositoryInfo.Overrides := ∅;
|}.

(** [Submariner] for the cluster [clusterID] with the PSK secret
    [pskName], from the empty world. *)
Definition deploy (clusterID pskName : string)
  : option error * World * list Call :=
  Submariner tt producer (options clusterID) (brokerInfo pskName)
    brokerSecret netconfig repositoryInfo terminal [].

End Scenario.

(** ** The generated client for [Broker] resources

    Each method of [brokers] builds a REST request and has the client carry
    it out.  The request builder and the client are client-go's; the model
    keeps what the methods say to them: the verb a request is created with
    and the builder calls made on it, in order. *)

(** The API types the client passes around.  [Broker_Name] is
    [broker.Name], and the zero values are what [&v1alpha1.Broker{}] and
    [&v1alpha1.BrokerList{}] point to. *)
Class ApiTypes := {
  Broker : Type;
  Broker_Name : Broker -> string;
  Broker_zero : Broker;
  BrokerList : Type;
  BrokerList_zero : BrokerList;
  watch_Interface : Type;
  GetOptions : Type;
  DeleteOptions : Type;
  ListOptions_selectors : Type;
}.

(** [v1.ListOptions]: the two fields the client reads or writes, and the
    rest.  [TimeoutSeconds] is [None] when the pointer is nil. *)
Module ListOptions.
Record t `{ApiTypes} := mk {
  selectors : ListOptions_selectors;
  Watch : bool;
  TimeoutSeconds : option Z;
}.
End ListOptions.

(** An [int64] holds the integers from [-2^63] to [2^63 - 1]; arithmetic
    on it wraps around. *)
Definition int64_range (z : Z) : Prop := - 2 ^ 63 <= z < 2 ^ 63.

Definition int64_wrap (z : Z) : Z := (z + 2 ^ 63) mod 2 ^ 64 - 2 ^ 63.

(** [time.Second], in nanoseconds, and the product of two durations. *)
Definition time_Second : Z := 1000000000.

Definition Duration_mul (a b : Z) : Z := int64_wrap (a * b).

Module rest.

Inductive Verb : Type :=
| GET | POST | PUT | DELETE
| PATCH (pt : string).

Inductive Params `{ApiTypes} : Type :=
| GetParams (options : GetOptions)
| ListParams (opts : ListOptions.t).

Inductive BodyArg `{ApiTypes} : Type :=
| BrokerBody (broker : Broker)
| DeleteBody (options : option DeleteOptions)
| BytesBody (data : string).

Inductive Step `{ApiTypes} : Type :=
| Namespace (namespace : string)
| Resource (resource : string)
| Name (resourceName : string)
| SubResource (subresources : list string)
| VersionedParams (obj : Params)
| Timeout (d : Z)
| Body (obj : BodyArg).

Record Request `{ApiTypes} := mkRequest {
  verb : Verb;
  steps : list Step;
}.

(** [rest.Interface], by how a request ends: [Do().Into(result)], where
    [result] points to the given value and the value it points to
    afterwards is returned; [Do().Error()]; and [Watch()]. *)
Record Interface `{Handles} `{ApiTypes} := mkInterface {
  Do_Into_Broker :
    Request -> Broker -> World -> (Broker * option error) * World;
  Do_Into_BrokerList :
    Request -> BrokerList -> World -> (BrokerList * option error) * World;
  Do_Error : Request -> World -> option error * World;
  Do_Watch :
    Request -> World -> (option watch_Interface * option error) * World;
}.

End rest.

Module brokers.

Record t `{Handles} `{ApiTypes} := mk {
  client : rest.Interface;
  ns : string;
}.

(** The timeout of [List], [Watch] and [DeleteCollection]: zero unless
    [TimeoutSeconds] is set. *)
Definition timeout_of `{ApiTypes} (opts : ListOptions.t) : Z :=
  let timeout := 0 in
  match ListOptions.TimeoutSeconds opts with
  | Some seconds => Duration_mul seconds time_Second
  | None => timeout
  end.

Section Methods.
Context `{Handles} `{ApiTypes}.
Variable c : t.

Definition Get_request (name : string) (options : GetOptions)
  : rest.Request :=
  {| rest.verb := rest.GET;
     rest.steps :=
    [rest.Namespace (ns c); rest.Resource "brokers"; rest.Name name;
     rest.VersionedParams (rest.GetParams options)] |}.

Definition Get (name : string) (options : GetOptions)
  : World -> (Broker * option error) * World :=
  let result := Broker_zero in
  rest.Do_Into_Broker (client c) (Get_request name options) result.

Definition List_request (opts : ListOptions.t) : rest.Request :=
  let timeout := timeout_of opts in
  {| rest.verb := rest.GET;
     rest.steps :=
    [rest.Namespace (ns c); rest.Resource "brokers";
     rest.VersionedParams (rest.ListParams opts); rest.Timeout timeout] |}.

Definition List (opts : ListOptions.t)
  : World -> (BrokerList * option error) * World :=
  let result := BrokerList_zero in
  rest.Do_Into_BrokerList (client c) (List_request opts) result.

Definition Watch_request (opts : ListOptions.t) : rest.Request :=
  let timeout := timeout_of opts in
  let opts :=
    {| ListOptions.selectors := ListOptions.selectors opts;
       ListOptions.Watch := true;
       ListOptions.TimeoutSeconds := ListOptions.TimeoutSeconds opts |} in
  {| rest.verb := rest.GET;
     rest.steps :=
    [rest.Namespace (ns c); rest.Resource "brokers";
     rest.VersionedParams (rest.ListParams opts); rest.Timeout timeout] |}.

Definition Watch (opts : ListOptions.t)
  : World -> (option watch_Interface * option error) * World :=
  rest.Do_Watch (client c) (Watch_request opts).

Definition Create_request (broker : Broker) : rest.Request :=
  {| rest.verb := rest.POST;
     rest.steps :=
    [rest.Namespace (ns c); rest.Resource "brokers";
     rest.Body (rest.BrokerBody broker)] |}.

Definition Create (broker : Broker)
  : World -> (Broker * option error) * World :=
  let result := Broker_zero in
  rest.Do_Into_Broker (client c) (Create_request broker) result.

Definition Update_request (broker : Broker) : rest.Request :=
  {| rest.verb := rest.PUT;
     rest.steps :=
    [rest.Namespace (ns c); rest.Resource "brokers";
     rest.Name (Broker_Name broker); rest.Body (rest.BrokerBody broker)] |}.

Definition Update (broker : Broker)
  : World -> (Broker * option error) * World :=
  let result := Broker_zero in
  rest.Do_Into_Broker (client c) (Update_request broker) result.

Definition UpdateStatus_request (broker : Broker) : rest.Request :=
  {| rest.verb := rest.PUT;
     rest.steps :=
    [rest.Namespace (ns c); rest.Resource "brokers";
     rest.Name (Broker_Name broker); rest.SubResource ["status"];
     rest.Body (rest.BrokerBody broker)] |}.

Definition UpdateStatus (broker : Broker)
  : World -> (Broker * option error) * World :=
  let result := Broker_zero in
  rest.Do_Into_Broker (client c) (UpdateStatus_request broker) result.

Definition Delete_request (name : string) (options : option DeleteOptions)
  : rest.Request :=
  {| rest.verb := rest.DELETE;
     rest.steps :=
    [rest.Namespace (ns c); rest.Resource "brokers"; rest.Name name;
     rest.Body (rest.DeleteBody options)] |}.

Definition Delete (name : string) (options : option DeleteOptions)
  : World -> option error * World :=
  rest.Do_Error (client c) (Delete_request name options).

Definition DeleteCollection_request (options : option DeleteOptions)
    (listOptions : ListOptions.t) : rest.Request :=
  let timeout := timeout_of listOptions in
  {| rest.verb := rest.DELETE;
     rest.steps :=
    [rest.Namespace (ns c); rest.Resource "brokers";
     rest.VersionedParams (rest.ListParams listOptions);
     rest.Timeout timeout; rest.Body (rest.DeleteBody options)] |}.

Definition DeleteCollection (options : option DeleteOptions)
    (listOptions : ListOptions.t) : World -> option error * World :=
  rest.Do_Error (client c) (DeleteCollection_request options listOptions).

Definition Patch_request (name : string) (pt : string) (data : string)
    (subresources : list string) : rest.Request :=
  {| rest.verb := (rest.PATCH pt);
     rest.steps :=
    [rest.Namespace (ns c); rest.Resource "brokers";
     rest.SubResource subresources; rest.Name name;
     rest.Body (rest.BytesBody data)] |}.

Definition Patch (name : string) (pt : string) (data : string)
    (subresources : list string)
  : World -> (Broker * option error) * World :=
  let result := Broker_zero in
  rest.Do_Into_Broker (client c) (Patch_request name pt data subresources)
    result.

End Methods.

End brokers.

(** [newBrokers]: the client for the namespace, over the REST client of
    the clientset. *)
Definition newBrokers `{Handles} `{ApiTypes} (RESTClient : rest.Interface)
    (namespace : string) : brokers.t :=
  {| brokers.client := RESTClient; brokers.ns := namespace |}.

(** The requests a client can make, by method. *)
Inductive brokers_request `{Handles} `{ApiTypes} (c : brokers.t)
  : rest.Request -> Prop :=
| request_Get name options :
    brokers_request c (brokers.Get_request c name options)
| request_List opts : brokers_request c (brokers.List_request c opts)
| request_Watch opts : brokers_request c (brokers.Watch_request c opts)
| request_Create broker :
    brokers_request c (brokers.Create_request c broker)
| request_Update broker :
    brokers_request c (brokers.Update_request c broker)
| request_UpdateStatus broker :
    brokers_request c (brokers.UpdateStatus_request c broker)
| request_Delete name options :
    brokers_request c (brokers.Delete_request c name options)
| request_DeleteCollection options listOptions :
    brokers_request c
      (brokers.DeleteCollection_request c options listOptions)
| request_Patch name pt data subresources :
    brokers_request c (brokers.Patch_request c name pt data subresources).

(** A step that says where a request goes. *)
Definition is_address `{ApiTypes} (step : rest.Step) : bool :=
  match step with
  | rest.Namespace _ | rest.Resource _ => true
  | _ => false
  end.

(** The timeouts a request sets, in order. *)
Definition timeouts `{ApiTypes} (r : rest.Request) : list Z :=
  omap (fun step => match step with rest.Timeout d => Some d | _ => None end)
       (rest.steps r).

(** ** Notions for the further properties *)

(** The pieces put back together with [sep] between them (what
    [strings.Join] gives). *)
Fixpoint join (pieces : list string) (sep : string) : string :=
  match pieces with
  | [] => ""
  | [piece] => piece
  | piece :: rest => piece +:+ sep +:+ join rest sep
  end.

(** The options with another repository and image version. *)
Definition with_image (repository imageVersion : string)
    (o : SubmarinerOptions.t) : SubmarinerOptions.t :=
  SubmarinerOptions.mk
    (SubmarinerOptions.PreferredServer o) (SubmarinerOptions.ForceUDPEncaps o)
    (SubmarinerOptions.NATTraversal o) (SubmarinerOptions.IPSecDebug o)
    (SubmarinerOptions.SubmarinerDebug o)
    (SubmarinerOptions.AirGappedDeployment o)
    (SubmarinerOptions.LoadBalancerEnabled o)
    (SubmarinerOptions.HealthCheckEnabled o)
    (SubmarinerOptions.BrokerK8sInsecure o) (SubmarinerOptions.NATTPort o)
    (SubmarinerOptions.HealthCheckInterval o)
    (SubmarinerOptions.HealthCheckMaxPacketLossCount o)
    (SubmarinerOptions.ClusterID o) (SubmarinerOptions.CableDriver o)
    (SubmarinerOptions.CoreDNSCustomConfigMap o)
    repository imageVersion
    (SubmarinerOptions.ServiceCIDR o) (SubmarinerOptions.ClusterCIDR o)
    (SubmarinerOptions.CustomDomains o).

Definition is_reporter_Error `{Handles} (c : Call) : bool :=
  match c with reporter_Error_call _ _ => true | _ => false end.

Definition is_reporter_End `{Handles} (c : Call) : bool :=
  match c with reporter_End_call => true | _ => false end.

Definition is_Cleanup `{Handles} (c : Call) : bool :=
  match c with Cleanup_call => true | _ => false end.

(** A call of [status.Error] with a nil error. *)
Definition reports_nil `{Handles} (c : Call) : bool :=
  match c with reporter_Error_call None _ => true | _ => false end.

(** The secret with one more entry in its data. *)
Definition with_data (key value : string) (s : Secret.t) : Secret.t :=
  Secret.mk (Secret.Name s) (<[key:=value]> (Secret.Data s)).

(** The broker information with another PSK secret. *)
Definition with_IPSecPSK (psk : Secret.t) (i : Info.t) : Info.t :=
  Info.mk (Info.BrokerURL i) psk (Info.IsServiceDiscoveryEnabled i).

(** The inverse of [base64.EncodeToString], for stating that the encoding
    loses nothing: groups of four characters are turned back into three
    bytes, and a last group padded with ['='] into one or two. *)
Module base64_inverse.

(** The position of a character in a string. *)
Fixpoint position (c : ascii) (s : string) : option N :=
  match s with
  | "" => None
  | String d s' =>
      if Stdlib.Strings.Ascii.eqb c d then Some 0%N
      else option_map N.succ (position c s')
  end.

(** The 6-bit value of a character of the alphabet. *)
Definition dec (c : ascii) : option N := position c base64.encodeStd.

Definition is_pad (c : ascii) : bool := Stdlib.Strings.Ascii.eqb c "=".

Definition byte1 (v1 v2 : N) : ascii :=
  ascii_of_N (N.lor (N.shiftl v1 2) (N.shiftr v2 4)).
Definition byte2 (v2 v3 : N) : ascii :=
  ascii_of_N (N.lor (N.shiftl (N.land v2 15) 4) (N.shiftr v3 2)).
Definition byte3 (v3 v4 : N) : ascii :=
  ascii_of_N (N.lor (N.shiftl (N.land v3 3) 6) v4).

Fixpoint Decode (s : string) : option string :=
  match s with
  | "" => Some ""
  | String c1 (String c2 (String c3 (String c4 rest))) =>
      match dec c1, dec c2 with
      | Some v1, Some v2 =>
          if is_pad c3 then
            if is_pad c4 && bool_decide (rest = "")
            then Some (String (byte1 v1 v2) "")
            else None
          else
            match dec c3 with
            | Some v3 =>
                if is_pad c4 then
                  if bool_decide (rest = "")
                  then Some (String (byte1 v1 v2) (String (byte2 v2 v3) ""))
                  else None
                else
                  match dec c4, Decode rest with
                  | Some v4, Some bytes =>
                      Some (String (byte1 v1 v2) (String (byte2 v2 v3)
                             (String (byte3 v3 v4) bytes)))
                  | _, _ => None
                  end
            | None => None
            end
      | _, _ => None
      end
  | _ => None
  end.

End base64_inverse.

(** ** A small API to run the client in

    A broker is its name, a list of brokers is the list of their names, and
    the REST client answers every request with no error and leaves the
    result as it was. *)

Module ClientScenario.

#[export] Instance api : ApiTypes := {|
  Broker := string;
  Broker_Name := fun broker => broker;
  Broker_zero := "";
  BrokerList := list string;
  BrokerList_zero := [];
  watch_Interface := unit;
  GetOptions := unit;
  DeleteOptions := unit;
  ListOptions_selectors := string;
|}.

Definition RESTClient : @rest.Interface Scenario.handles api := {|
  rest.Do_Into_Broker := fun _ result w => (result, None, w);
  rest.Do_Into_BrokerList := fun _ result w => (result, None, w);
  rest.Do_Error := fun _ w => (None, w);
  rest.Do_Watch := fun _ w => (Some tt, None, w);
|}.

Definition client : @brokers.t Scenario.handles api :=
  newBrokers RESTClient "submariner-k8s-broker".

Definition listOptions (seconds : option Z) : ListOptions.t := {|
  ListOptions.selectors := "app=submariner";
  ListOptions.Watch := false;
  ListOptions.TimeoutSeconds := seconds;
|}.

End ClientScenario.

(** * Part II: the properties *)

(** ** Byte strings *)

Lemma app_empty_l (s : string) : "" +:+ s = s.
Proof. reflexivity. Qed.

Lemma app_String (c : ascii) (s t : string) :
  String c s +:+ t = String c (s +:+ t).
Proof. reflexivity. Qed.

Lemma app_empty_r (s : string) : s +:+ "" = s.
Proof.
  induction s as [|c s IH]; [reflexivity|].
  rewrite app_String, IH. reflexivity.
Qed.

Lemma app_assoc_str (s t u : string) : (s +:+ t) +:+ u = s +:+ t +:+ u.
Proof.
  induction s as [|c s IH]; [reflexivity|].
  rewrite !app_String, IH. reflexivity.
Qed.

Lemma length_app_str (s t : string) :
  String.length (s +:+ t) = (String.length s + String.length t)%nat.
Proof.
  induction s as [|c s IH]; [reflexivity|].
  rewrite app_String. simpl. rewrite IH. reflexivity.
Qed.

(** Two decompositions of one string whose left parts have the same length
    are the same decomposition. *)
Lemma app_inv_length (p q s t : string) :
  p +:+ s = q +:+ t -> String.length p = String.length q -> p = q /\ s = t.
Proof.
  revert q. induction p as [|c p IH]; intros [|d q] H Hlen; try discriminate.
  - split; [reflexivity|exact H].
  - rewrite !app_String in H. injection H as -> H.
    simpl in Hlen. injection Hlen as Hlen.
    destruct (IH q H Hlen) as [-> ->]. split; reflexivity.
Qed.

(** When the left part of one decomposition is shorter, the other left part
    extends it. *)
Lemma app_inv_shorter (p q s t : string) :
  p +:+ s = q +:+ t -> (String.length q < String.length p)%nat ->
  exists c u, p = q +:+ String c u /\ t = String c u +:+ s.
Proof.
  revert p. induction q as [|d q IH]; intros [|c p] H Hlen;
    simpl in Hlen; try lia.
  - exists c, p. rewrite !app_empty_l in *. split; [reflexivity|].
    symmetry. exact H.
  - rewrite !app_String in H. injection H as -> H.
    destruct (IH p H) as (c' & u & -> & ->); [lia|].
    exists c', u. rewrite app_String. split; reflexivity.
Qed.

(** ** [strings.Index] finds the first instance *)

Section IndexFacts.
Import strings.

Lemma HasPrefix_app (p t : string) : HasPrefix (p +:+ t) p = true.
Proof.
  induction p as [|c p IH]; [reflexivity|].
  rewrite app_String. simpl. rewrite Ascii.eqb_refl. exact IH.
Qed.

Lemma HasPrefix_inv (s p : string) :
  HasPrefix s p = true -> exists t, s = p +:+ t.
Proof.
  revert s. induction p as [|c p IH]; intros s H.
  - exists s. reflexivity.
  - destruct s as [|d s]; simpl in H; [discriminate|].
    destruct (Stdlib.Strings.Ascii.eqb c d) eqn:E; [|discriminate].
    apply Ascii.eqb_eq in E. subst d.
    destruct (IH s H) as [t ->]. exists t. reflexivity.
Qed.

Lemma Index_lower (s sep : string) : -1 <= Index s sep.
Proof.
  induction s as [|c s IH]; simpl.
  - destruct (HasPrefix "" sep); lia.
  - destruct (HasPrefix (String c s) sep); [lia|].
    destruct (Z.ltb_spec (Index s sep) 0); lia.
Qed.

(** A non-negative result is the position of an instance. *)
Lemma Index_found (s sep : string) :
  0 <= Index s sep ->
  exists pre post, s = pre +:+ sep +:+ post /\ len pre = Index s sep.
Proof.
  induction s as [|c s IH]; simpl.
  - destruct (HasPrefix "" sep) eqn:E; [|lia]. intros _.
    apply HasPrefix_inv in E. destruct E as [t E].
    exists "", t. split; [exact E|reflexivity].
  - destruct (HasPrefix (String c s) sep) eqn:E.
    + intros _. apply HasPrefix_inv in E. destruct E as [t E].
      exists "", t. split; [exact E|reflexivity].
    + destruct (Z.ltb_spec (Index s sep) 0) as [Hneg|Hpos]; [lia|].
      intros _. destruct (IH Hpos) as (pre & post & -> & Hlen).
      exists (String c pre), post. split; [reflexivity|].
      unfold len in *. simpl String.length. lia.
Qed.

(** No instance starts before the result. *)
Lemma Index_least (sep pre post : string) :
  0 <= Index (pre +:+ sep +:+ post) sep <= len pre.
Proof.
  induction pre as [|c pre IH].
  - rewrite app_empty_l. destruct (sep +:+ post) eqn:E; simpl;
      rewrite <- E, HasPrefix_app; unfold len; simpl; lia.
  - rewrite app_String. simpl.
    destruct (HasPrefix _ sep); [unfold len; simpl String.length; lia|].
    destruct (Z.ltb_spec (Index (pre +:+ sep +:+ post) sep) 0); [lia|].
    unfold len in *. simpl String.length. lia.
Qed.

Lemma Index_absent (s sep : string) :
  Index s sep < 0 ->
  Index s sep = -1 /\ forall pre post, s <> pre +:+ sep +:+ post.
Proof.
  intros H. split; [pose proof (Index_lower s sep); lia|].
  intros pre post ->. pose proof (Index_least sep pre post). lia.
Qed.

(** The result is the position of the first instance. *)
Lemma Index_first (sep pre post : string) :
  (forall pre' post',
     pre +:+ sep +:+ post = pre' +:+ sep +:+ post' ->
     (String.length pre <= String.length pre')%nat) ->
  Index (pre +:+ sep +:+ post) sep = len pre.
Proof.
  intros Hmin. pose proof (Index_least sep pre post) as [H0 Hle].
  destruct (Index_found _ _ H0) as (pre' & post' & E & Hlen).
  specialize (Hmin _ _ E). unfold len in *. lia.
Qed.

Lemma drop_app (pre t : string) : drop (String.length pre) (pre +:+ t) = t.
Proof. induction pre as [|c pre IH]; [destruct t; reflexivity|exact IH]. Qed.

Lemma take_app (pre t : string) : take (String.length pre) (pre +:+ t) = pre.
Proof.
  induction pre as [|c pre IH]; [destruct t; reflexivity|].
  rewrite app_String. simpl. rewrite IH. reflexivity.
Qed.

(** The slice expressions of the program stay within the string. *)
Lemma Index_slice_in_range (s sep : string) :
  0 <= Index s sep -> 0 <= Index s sep + len sep <= len s.
Proof.
  intros H. destruct (Index_found _ _ H) as (pre & post & -> & Hlen).
  unfold len in *. rewrite !length_app_str. lia.
Qed.

Lemma length_drop (n : nat) (s : string) :
  String.length (drop n s) = (String.length s - n)%nat.
Proof.
  revert s. induction n as [|n IH]; intros [|c s]; simpl; try reflexivity.
  apply IH.
Qed.

Lemma Index_empty (sep : string) : sep <> "" -> Index "" sep = -1.
Proof. destruct sep; [congruence|reflexivity]. Qed.

Lemma genSplit_eq (fuel : nat) (s sep : string) :
  genSplit fuel s sep =
  if Index s sep <? 0 then [s]
  else match fuel with
       | O => [s]
       | S fuel' =>
           slice_to s (Index s sep)
           :: genSplit fuel' (slice_from s (Index s sep + len sep)) sep
       end.
Proof. destruct fuel; reflexivity. Qed.

(** [genSplit] does not depend on its fuel once there is enough of it. *)
Lemma genSplit_fuel (sep : string) (fuel1 fuel2 : nat) (s : string) :
  sep <> "" ->
  (String.length s <= fuel1)%nat -> (String.length s <= fuel2)%nat ->
  genSplit fuel1 s sep = genSplit fuel2 s sep.
Proof.
  intros Hsep. revert fuel2 s.
  induction fuel1 as [|fuel1 IH]; intros fuel2 s H1 H2.
  - destruct s; [|simpl in H1; lia].
    rewrite !genSplit_eq, Index_empty by exact Hsep. reflexivity.
  - destruct (Z.ltb_spec (Index s sep) 0) as [Hneg|Hpos].
    + apply Z.ltb_lt in Hneg. rewrite !genSplit_eq, Hneg. reflexivity.
    + pose proof (Index_slice_in_range s sep Hpos) as Hrange.
      assert (0 < len sep) as Hlen.
      { unfold len. destruct sep; [congruence|simpl String.length; lia]. }
      destruct fuel2 as [|fuel2]; [unfold len in *; lia|].
      apply Z.ltb_ge in Hpos as Hpos'.
      rewrite (genSplit_eq (S fuel1)), (genSplit_eq (S fuel2)), Hpos'.
      f_equal.
      apply IH; unfold slice_from; rewrite length_drop; unfold len in *; lia.
Qed.

Lemma Split_absent (s sep : string) : Index s sep < 0 -> Split s sep = [s].
Proof.
  intros H. apply Z.ltb_lt in H. unfold Split.
  rewrite genSplit_eq, H. reflexivity.
Qed.

(** [Split] cuts at the first instance of the separator and goes on with
    what follows it. *)
Lemma Split_first (s sep pre post : string) :
  sep <> "" -> first_instance s sep pre post ->
  Split s sep = pre :: Split post sep.
Proof.
  intros Hsep [-> Hmin].
  pose proof (Index_first sep pre post Hmin) as HI.
  unfold Split at 1.
  assert (0 < len sep) as Hlen.
  { unfold len. destruct sep; [congruence|simpl String.length; lia]. }
  destruct (String.length (pre +:+ sep +:+ post)) as [|n] eqn:En.
  { rewrite !length_app_str in En. unfold len in Hlen. lia. }
  rewrite genSplit_eq, HI.
  assert ((len pre <? 0) = false) as -> by (apply Z.ltb_ge; unfold len; lia).
  f_equal.
  - unfold slice_to, len. rewrite Nat2Z.id. apply take_app.
  - assert (slice_from (pre +:+ sep +:+ post) (len pre + len sep) = post)
      as ->.
    { unfold slice_from, len. rewrite <- Nat2Z.inj_add, Nat2Z.id.
      rewrite <- length_app_str, <- app_assoc_str. apply drop_app. }
    unfold Split. apply genSplit_fuel; [exact Hsep| |lia].
    rewrite !length_app_str in En. unfold len in Hlen. lia.
Qed.

(** In front of the first ["/"] stands a string without ["/"], and the
    other way round. *)
Lemma first_slash (a rest : string) :
  ~ contains a "/" -> first_instance (a +:+ "/" +:+ rest) "/" a rest.
Proof.
  intros Hno. split; [reflexivity|]. intros pre' post' E.
  destruct (Nat.le_gt_cases (String.length a) (String.length pre'))
    as [Hle|Hlt]; [exact Hle|].
  destruct (app_inv_shorter _ _ _ _ E Hlt) as (c & u & Ea & Et).
  rewrite app_String in Et. injection Et as <- _.
  exfalso. apply Hno. exists pre', u. exact Ea.
Qed.

End IndexFacts.

(** ** The two string helpers *)

Example Split_examples :
  strings.Split "a//b/" "/" = ["a"; ""; "b"; ""] /\
  strings.Split "" "/" = [""] /\
  strings.Split "a::b::::c" "::" = ["a"; "b"; ""; "c"].
Proof. repeat split; reflexivity. Qed.

(** RFC 4648 test vectors. *)
Example EncodeToString_vectors :
  base64.EncodeToString "" = "" /\
  base64.EncodeToString "f" = "Zg==" /\
  base64.EncodeToString "fo" = "Zm8=" /\
  base64.EncodeToString "foo" = "Zm9v" /\
  base64.EncodeToString "foob" = "Zm9vYg==" /\
  base64.EncodeToString "fooba" = "Zm9vYmE=" /\
  base64.EncodeToString "foobar" = "Zm9vYmFy".
Proof. repeat split; reflexivity. Qed.

Lemma removeSchemaPrefix_first (s pre post : string) :
  first_instance s "://" pre post -> removeSchemaPrefix s = post.
Proof.
  intros [-> Hmin]. unfold removeSchemaPrefix.
  rewrite (Index_first "://" pre post Hmin).
  assert ((0 <=? strings.len pre) = true) as ->
    by (apply Z.leb_le; unfold strings.len; lia).
  unfold strings.slice_from, strings.len.
  replace (Z.to_nat (Z.of_nat (String.length pre) + 3))
    with (String.length (pre +:+ "://")) by (rewrite length_app_str; simpl; lia).
  rewrite <- app_assoc_str. apply drop_app.
Qed.

Lemma removeSchemaPrefix_absent (s : string) :
  ~ contains s "://" -> removeSchemaPrefix s = s.
Proof.
  intros Hno. unfold removeSchemaPrefix.
  destruct (Z.leb_spec 0 (strings.Index s "://")) as [Hpos|Hneg];
    [|reflexivity].
  exfalso. apply Hno.
  destruct (Index_found _ _ Hpos) as (pre & post & E & _).
  exists pre, post. exact E.
Qed.

(** A string that contains [sub] has a first instance of it, the one
    [strings.Index] returns. *)
Lemma contains_first_instance (s sub : string) :
  contains s sub -> exists pre post, first_instance s sub pre post.
Proof.
  intros (pre0 & post0 & ->).
  pose proof (Index_least sub pre0 post0) as [H0 _].
  destruct (Index_found _ _ H0) as (pre & post & E & Hlen).
  exists pre, post. split; [exact E|].
  intros pre' post' E'. rewrite E' in Hlen.
  pose proof (Index_least sub pre' post') as [_ Hle].
  unfold strings.len in *. lia.
Qed.

(** C1: if [s] contains ["://"], [removeSchemaPrefix s] is what follows the
    first instance of ["://"] in [s], as in
    ["https://broker.example.com"]; if [s] does not contain ["://"], the
    result is [s] itself. *)
Theorem removeSchemaPrefix_spec (s : string) :
  (contains s "://" ->
   exists pre post,
     first_instance s "://" pre post /\ removeSchemaPrefix s = post) /\
  (forall pre post,
     first_instance s "://" pre post -> removeSchemaPrefix s = post) /\
  (~ contains s "://" -> removeSchemaPrefix s = s) /\
  removeSchemaPrefix "https://broker.example.com" = "broker.example.com".
Proof.
  split; [|split; [|split]].
  - intros H. destruct (contains_first_instance _ _ H) as (pre & post & Hf).
    exists pre, post. split; [exact Hf|].
    exact (removeSchemaPrefix_first _ _ _ Hf).
  - apply removeSchemaPrefix_first.
  - apply removeSchemaPrefix_absent.
  - reflexivity.
Qed.

Lemma slash_not_in_empty_tail (s : string) :
  ~ contains s "/" -> strings.Split s "/" = [s].
Proof.
  intros Hno. apply Split_absent.
  destruct (Z.ltb_spec (strings.Index s "/") 0) as [H|H]; [exact H|].
  exfalso. apply Hno.
  destruct (Index_found _ _ H) as (pre & post & E & _).
  exists pre, post. exact E.
Qed.

Lemma Split_slash (a rest : string) :
  ~ contains a "/" ->
  strings.Split (a +:+ "/" +:+ rest) "/" = a :: strings.Split rest "/".
Proof.
  intros Hno. apply Split_first; [discriminate|].
  apply first_slash. exact Hno.
Qed.

Lemma Split_nonempty (fuel : nat) (s sep : string) :
  strings.genSplit fuel s sep <> [].
Proof. rewrite genSplit_eq. destruct (_ <? _), fuel; discriminate. Qed.

(** The two index expressions are in range under their guard. *)
Lemma at_index_in_range (paramList : list string) :
  1 < Z.of_nat (length paramList) ->
  paramList !! 0%nat = Some (at_index paramList 0) /\
  paramList !! 1%nat = Some (at_index paramList 1).
Proof.
  destruct paramList as [|p0 [|p1 l]]; simpl; try lia.
  intros _. split; reflexivity.
Qed.

(** With a ["/"] in its argument, the function returns the first two pieces
    of the split. *)
Lemma getCustomCoreDNSParams_two (a rest : string) :
  ~ contains a "/" ->
  getCustomCoreDNSParams (a +:+ "/" +:+ rest)
  = (a, at_index (strings.Split rest "/") 0).
Proof.
  intros Hno. unfold getCustomCoreDNSParams.
  rewrite bool_decide_eq_true_2 by (destruct a; discriminate).
  rewrite Split_slash by exact Hno.
  destruct (strings.Split rest "/") as [|b l] eqn:E.
  { exfalso. exact (Split_nonempty _ _ _ E). }
  assert ((1 <? Z.of_nat (length (a :: b :: l))) = true) as ->
    by (apply Z.ltb_lt; simpl length; lia).
  reflexivity.
Qed.

(** C2: ["ns/name"] gives the namespace ["ns"] and the name ["name"], and so
    does every [ns] and [name] without ["/"]; a non-empty argument without
    ["/"] gives the empty namespace and the argument as the name; the empty
    string gives both empty. *)
Theorem getCustomCoreDNSParams_spec :
  getCustomCoreDNSParams "ns/name" = ("ns", "name") /\
  (forall ns name,
     ~ contains ns "/" -> ~ contains name "/" ->
     getCustomCoreDNSParams (ns +:+ "/" +:+ name) = (ns, name)) /\
  (forall s, s <> "" -> ~ contains s "/" ->
     getCustomCoreDNSParams s = ("", s)) /\
  getCustomCoreDNSParams "" = ("", "").
Proof.
  split; [reflexivity|]. split; [|split; [|reflexivity]].
  - intros ns name Hns Hname.
    rewrite getCustomCoreDNSParams_two by exact Hns.
    rewrite slash_not_in_empty_tail by exact Hname. reflexivity.
  - intros s Hs Hno. unfold getCustomCoreDNSParams.
    rewrite bool_decide_eq_true_2 by exact Hs.
    rewrite slash_not_in_empty_tail by exact Hno. reflexivity.
Qed.

Lemma getCustomCoreDNSParams_three (a b rest : string) :
  ~ contains a "/" -> ~ contains b "/" ->
  getCustomCoreDNSParams (a +:+ "/" +:+ b +:+ "/" +:+ rest) = (a, b) /\
  strings.Split (a +:+ "/" +:+ b +:+ "/" +:+ rest) "/"
  = a :: b :: strings.Split rest "/".
Proof.
  intros Ha Hb. split.
  - rewrite getCustomCoreDNSParams_two by exact Ha.
    rewrite Split_slash by exact Hb. reflexivity.
  - rewrite Split_slash by exact Ha. rewrite Split_slash by exact Hb.
    reflexivity.
Qed.

Lemma not_contains_empty (sub : string) : sub <> "" -> ~ contains "" sub.
Proof.
  intros Hsub (pre & post & E). destruct pre; [|discriminate].
  destruct sub; [congruence|discriminate].
Qed.

Lemma not_contains_slash_cons (c : ascii) (a : string) :
  c <> "/"%char -> ~ contains a "/" -> ~ contains (String c a) "/".
Proof.
  intros Hc Ha (pre & post & E). destruct pre as [|d pre].
  - rewrite app_empty_l, app_String in E. congruence.
  - rewrite app_String in E. injection E as _ E.
    apply Ha. exists pre, post. exact E.
Qed.

Lemma count_byte_String (c d : ascii) (s : string) :
  count_byte c (String d s)
  = ((if Stdlib.Strings.Ascii.eqb c d then 1 else 0) + count_byte c s)%nat.
Proof. reflexivity. Qed.

(** A string with a ["/"] splits at its first ["/"]. *)
Lemma cut_at_first_slash (s : string) :
  (1 <= count_byte "/" s)%nat ->
  exists a rest,
    s = a +:+ "/" +:+ rest /\ ~ contains a "/" /\
    S (count_byte "/" rest) = count_byte "/" s.
Proof.
  induction s as [|c s IH]; [simpl; lia|].
  rewrite count_byte_String.
  destruct (Stdlib.Strings.Ascii.eqb "/" c) eqn:E.
  - intros _. apply Ascii.eqb_eq in E. subst c.
    exists "", s. split; [reflexivity|]. split; [|reflexivity].
    apply not_contains_empty. discriminate.
  - intros H. destruct (IH H) as (a & rest & -> & Ha & Hc).
    exists (String c a), rest. split; [reflexivity|]. split; [|exact Hc].
    apply not_contains_slash_cons; [|exact Ha].
    intros ->. rewrite Ascii.eqb_refl in E. discriminate.
Qed.

(** C10: an argument with two or more ["/"], as ["a/b/c"], is
    [a/b/rest] with no ["/"] in [a] and [b]: [a] and [b] are the first two
    pieces of the split, the namespace is [a] and the name is [b]; what
    follows the second ["/"] is dropped. *)
Theorem getCustomCoreDNSParams_extra_components (s : string) :
  (2 <= count_byte "/" s)%nat ->
  exists a b rest,
    s = a +:+ "/" +:+ b +:+ "/" +:+ rest /\
    ~ contains a "/" /\ ~ contains b "/" /\
    strings.Split s "/" = a :: b :: strings.Split rest "/" /\
    getCustomCoreDNSParams s = (a, b).
Proof.
  intros H.
  destruct (cut_at_first_slash s) as (a & t & -> & Ha & Hc); [lia|].
  destruct (cut_at_first_slash t) as (b & rest & -> & Hb & _); [lia|].
  exists a, b, rest.
  destruct (getCustomCoreDNSParams_three a b rest Ha Hb) as [Hres Hsplit].
  repeat split; assumption.
Qed.

(** The claim's example. *)
Lemma getCustomCoreDNSParams_extra_components_abc :
  exists a b rest,
    "a/b/c" = a +:+ "/" +:+ b +:+ "/" +:+ rest /\
    ~ contains a "/" /\ ~ contains b "/" /\
    strings.Split "a/b/c" "/" = a :: b :: strings.Split rest "/" /\
    getCustomCoreDNSParams "a/b/c" = (a, b).
Proof.
  apply (getCustomCoreDNSParams_extra_components "a/b/c"). simpl. lia.
Defined.

(** ** [populateSubmarinerSpec] *)

Section PopulateFacts.
Context {constants : Constants}.
Variables (options : SubmarinerOptions.t) (brokerInfo : Info.t).
Variables (brokerSecret pskSecret : Secret.t) (netconfig : Config.t).
Variable repositoryInfo : RepositoryInfo.t.

Local Abbreviation spec :=
  (populateSubmarinerSpec options brokerInfo brokerSecret pskSecret netconfig
     repositoryInfo).

(** C4: the options are copied field for field, and the broker URL goes
    through [removeSchemaPrefix]. *)
Theorem populateSubmarinerSpec_copies_options :
  SubmarinerSpec.ClusterID spec = SubmarinerOptions.ClusterID options /\
  SubmarinerSpec.ServiceCIDR spec = SubmarinerOptions.ServiceCIDR options /\
  SubmarinerSpec.ClusterCIDR spec = SubmarinerOptions.ClusterCIDR options /\
  SubmarinerSpec.CableDriver spec = SubmarinerOptions.CableDriver options /\
  SubmarinerSpec.CeIPSecNATTPort spec = SubmarinerOptions.NATTPort options /\
  SubmarinerSpec.NatEnabled spec = SubmarinerOptions.NATTraversal options /\
  SubmarinerSpec.Debug spec = SubmarinerOptions.SubmarinerDebug options /\
  SubmarinerSpec.AirGappedDeployment spec
  = SubmarinerOptions.AirGappedDeployment options /\
  SubmarinerSpec.LoadBalancerEnabled spec
  = SubmarinerOptions.LoadBalancerEnabled options /\
  SubmarinerSpec.BrokerK8sInsecure spec
  = SubmarinerOptions.BrokerK8sInsecure options /\
  SubmarinerSpec.BrokerK8sApiServer spec
  = removeSchemaPrefix (Info.BrokerURL brokerInfo).
Proof. repeat split; populate_cases. Qed.

(** C8: the broker kind is ["k8s"], the namespace is the operator
    namespace, and the health check record is always there with the three
    health check options, whether or not the health check is enabled. *)
Theorem populateSubmarinerSpec_fixed_fields :
  SubmarinerSpec.Broker spec = "k8s" /\
  SubmarinerSpec.Namespace spec = OperatorNamespace /\
  SubmarinerSpec.ConnectionHealthCheck spec <> None /\
  SubmarinerSpec.ConnectionHealthCheck spec
  = Some {|
      HealthCheckSpec.Enabled := SubmarinerOptions.HealthCheckEnabled options;
      HealthCheckSpec.IntervalSeconds :=
        SubmarinerOptions.HealthCheckInterval options;
      HealthCheckSpec.MaxPacketLossCount :=
        SubmarinerOptions.HealthCheckMaxPacketLossCount options;
    |}.
Proof. repeat split; populate_cases; discriminate. Qed.

(** C9: the three optional fields.  [GlobalCIDR] is the configured one when
    that is not empty and stays empty otherwise; [CoreDNSCustomConfig] is
    there exactly when the config map option is not empty, and then holds
    the two results of [getCustomCoreDNSParams]; [CustomDomains] is there
    exactly when the option has at least one domain, and then is that
    option. *)
Theorem populateSubmarinerSpec_optional_fields :
  (Config.GlobalCIDR netconfig <> "" ->
   SubmarinerSpec.GlobalCIDR spec = Config.GlobalCIDR netconfig) /\
  (Config.GlobalCIDR netconfig = "" -> SubmarinerSpec.GlobalCIDR spec = "") /\
  (SubmarinerSpec.CoreDNSCustomConfig spec <> None <->
   SubmarinerOptions.CoreDNSCustomConfigMap options <> "") /\
  (SubmarinerOptions.CoreDNSCustomConfigMap options <> "" ->
   SubmarinerSpec.CoreDNSCustomConfig spec
   = Some {|
       CoreDNSCustomConfig.ConfigMapName :=
         (getCustomCoreDNSParams
            (SubmarinerOptions.CoreDNSCustomConfigMap options)).2;
       CoreDNSCustomConfig.Namespace :=
         (getCustomCoreDNSParams
            (SubmarinerOptions.CoreDNSCustomConfigMap options)).1;
     |}) /\
  (SubmarinerSpec.CustomDomains spec <> None <->
   0 < slice_len (SubmarinerOptions.CustomDomains options)) /\
  (0 < slice_len (SubmarinerOptions.CustomDomains options) ->
   SubmarinerSpec.CustomDomains spec
   = SubmarinerOptions.CustomDomains options).
Proof.
  unfold populateSubmarinerSpec.
  destruct (getCustomCoreDNSParams _) as [namespace name].
  destruct (Z.ltb_spec 0 (slice_len (SubmarinerOptions.CustomDomains options)))
    as [Hlen|Hlen];
    repeat case_bool_decide; simpl;
    repeat split; intros; try congruence; try lia; try discriminate.
  all: destruct (SubmarinerOptions.CustomDomains options);
    simpl in *; try discriminate; lia.
Qed.

End PopulateFacts.

(** ** [Submariner] *)

Section SubmarinerFacts.
Context {handles : Handles} {externals : Externals} {constants : Constants}.
Variables (ctx : context_Context) (clientProducer : Producer.t).
Variables (options : SubmarinerOptions.t) (brokerInfo : Info.t).
Variables (brokerSecret : Secret.t) (netconfig : Config.t).
Variables (repositoryInfo : RepositoryInfo.t) (status : Reporter.t).

(** The run of [Submariner] from the world [w], and its two external
    steps: creating the PSK secret, and applying the Submariner resource
    built with the secret the first step returned. *)
Local Abbreviation run :=
  (Submariner ctx clientProducer options brokerInfo brokerSecret netconfig
     repositoryInfo status).

Local Abbreviation psk_step :=
  (ensure_secret ctx (Producer.ForKubernetes clientProducer)
     OperatorNamespace (Info.IPSecPSK brokerInfo)).

Local Abbreviation cr_spec pskSecret :=
  (populateSubmarinerSpec options brokerInfo brokerSecret pskSecret netconfig
     repositoryInfo).

Local Abbreviation cr_step pskSecret :=
  (ensure_submarinercr ctx (Producer.ForGeneral clientProducer)
     OperatorNamespace (cr_spec pskSecret)).

Local Abbreviation psk_call :=
  (secret_Ensure_call OperatorNamespace (Info.IPSecPSK brokerInfo)).

Local Abbreviation cr_call pskSecret :=
  (submarinercr_Ensure_call OperatorNamespace (cr_spec pskSecret)).

(** The run, by the outcome of the two steps. *)
Lemma Submariner_psk_fails (w w1 : World) (err : error) :
  psk_step w = (inl err, w1) ->
  run w =
  let '(r, w2) :=
    Reporter.Error status (Some err) "Error creating PSK secret for cluster"
      w1 in
  (r, w2,
   [psk_call;
    reporter_Error_call (Some err) "Error creating PSK secret for cluster"]).
Proof.
  unfold Submariner, secret.Ensure, status_Error, call.
  unfold mbind, M_bind. intros ->.
  destruct (Reporter.Error status _ _ w1) as [r w2]. reflexivity.
Qed.

Lemma Submariner_cr_fails (w w1 w2 : World) (pskSecret : Secret.t)
    (err : error) :
  psk_step w = (inr pskSecret, w1) ->
  cr_step pskSecret w1 = (Some err, w2) ->
  run w =
  let '(r, w3) :=
    Reporter.Error status (Some err) "Submariner deployment failed" w2 in
  (r, w3,
   [psk_call; cr_call pskSecret;
    reporter_Error_call (Some err) "Submariner deployment failed"]).
Proof.
  unfold Submariner, secret.Ensure, submarinercr.Ensure, status_Error, call.
  unfold mbind, M_bind. intros -> ->.
  destruct (Reporter.Error status _ _ w2) as [r w3]. reflexivity.
Qed.

Lemma Submariner_succeeds (w w1 w2 : World) (pskSecret : Secret.t) :
  psk_step w = (inr pskSecret, w1) ->
  cr_step pskSecret w1 = (None, w2) ->
  run w = (None, w2, [psk_call; cr_call pskSecret]).
Proof.
  unfold Submariner, secret.Ensure, submarinercr.Ensure, status_Error, call.
  unfold mbind, M_bind. intros -> ->. reflexivity.
Qed.

(** C3: with a reporter that keeps the contract of [Error], [Submariner]
    returns the error of the failing step wrapped with that step's
    message, and nil when both steps succeed; so it returns an error
    exactly when one of the two steps fails. *)
Theorem Submariner_returns_wrapped_errors (w : World) :
  reporter_contract status ->
  (forall err w1,
     psk_step w = (inl err, w1) ->
     result (run w)
     = Some (errors_Wrap err "Error creating PSK secret for cluster")) /\
  (forall pskSecret w1 err w2,
     psk_step w = (inr pskSecret, w1) ->
     cr_step pskSecret w1 = (Some err, w2) ->
     result (run w) = Some (errors_Wrap err "Submariner deployment failed")) /\
  (forall pskSecret w1 w2,
     psk_step w = (inr pskSecret, w1) ->
     cr_step pskSecret w1 = (None, w2) ->
     result (run w) = None) /\
  (result (run w) <> None <->
   (exists err w1, psk_step w = (inl err, w1)) \/
   (exists pskSecret w1 err w2,
      psk_step w = (inr pskSecret, w1) /\
      cr_step pskSecret w1 = (Some err, w2))).
Proof.
  intros [_ Hwrap].
  assert (forall err w1,
            psk_step w = (inl err, w1) ->
            result (run w)
            = Some (errors_Wrap err "Error creating PSK secret for cluster"))
    as Hpsk.
  { intros err w1 E. rewrite (Submariner_psk_fails _ _ _ E).
    specialize (Hwrap err "Error creating PSK secret for cluster" w1).
    destruct (Reporter.Error status _ _ w1) as [r w2]. exact Hwrap. }
  assert (forall pskSecret w1 err w2,
            psk_step w = (inr pskSecret, w1) ->
            cr_step pskSecret w1 = (Some err, w2) ->
            result (run w)
            = Some (errors_Wrap err "Submariner deployment failed"))
    as Hcr.
  { intros pskSecret w1 err w2 E1 E2.
    rewrite (Submariner_cr_fails _ _ _ _ _ E1 E2).
    specialize (Hwrap err "Submariner deployment failed" w2).
    destruct (Reporter.Error status _ _ w2) as [r w3]. exact Hwrap. }
  assert (forall pskSecret w1 w2,
            psk_step w = (inr pskSecret, w1) ->
            cr_step pskSecret w1 = (None, w2) ->
            result (run w) = None)
    as Hok.
  { intros pskSecret w1 w2 E1 E2.
    rewrite (Submariner_succeeds _ _ _ _ E1 E2). reflexivity. }
  split; [exact Hpsk|]. split; [exact Hcr|]. split; [exact Hok|].
  destruct (psk_step w) as [[err|pskSecret] w1] eqn:E1.
  - rewrite (Hpsk _ _ eq_refl). split; [|discriminate].
    intros _. left. exists err, w1. reflexivity.
  - destruct (cr_step pskSecret w1) as [[err|] w2] eqn:E2.
    + rewrite (Hcr _ _ _ _ eq_refl E2). split; [|discriminate].
      intros _. right. exists pskSecret, w1, err, w2. split; [reflexivity|].
      exact E2.
    + rewrite (Hok _ _ _ eq_refl E2). split; [congruence|].
      intros [(err & w1' & E)|(p & w1' & err & w2' & E & E')].
      * discriminate.
      * injection E as <- <-. rewrite E2 in E'. discriminate.
Qed.

(** C7: one run calls [secret.Ensure] once and [submarinercr.Ensure] at
    most once, in that order and with nothing repeated; when the PSK
    secret cannot be created the Submariner resource is not applied: the
    run ends with the report of the error, in the world the failed step
    and that report left. *)
Theorem Submariner_no_retry (w : World) :
  (calls is_secret_Ensure (log_of (run w)) <= 1)%nat /\
  (calls is_submarinercr_Ensure (log_of (run w)) <= 1)%nat /\
  (forall err w1,
     psk_step w = (inl err, w1) ->
     calls is_submarinercr_Ensure (log_of (run w)) = 0%nat /\
     log_of (run w)
     = [psk_call;
        reporter_Error_call (Some err)
          "Error creating PSK secret for cluster"] /\
     world_after (run w)
     = (Reporter.Error status (Some err)
          "Error creating PSK secret for cluster" w1).2) /\
  (forall pskSecret w1 err w2,
     psk_step w = (inr pskSecret, w1) ->
     cr_step pskSecret w1 = (Some err, w2) ->
     log_of (run w)
     = [psk_call; cr_call pskSecret;
        reporter_Error_call (Some err) "Submariner deployment failed"]) /\
  (forall pskSecret w1 w2,
     psk_step w = (inr pskSecret, w1) ->
     cr_step pskSecret w1 = (None, w2) ->
     log_of (run w) = [psk_call; cr_call pskSecret] /\
     world_after (run w) = w2).
Proof.
  assert (forall err w1,
            psk_step w = (inl err, w1) ->
            log_of (run w)
            = [psk_call;
               reporter_Error_call (Some err)
                 "Error creating PSK secret for cluster"] /\
            world_after (run w)
            = (Reporter.Error status (Some err)
                 "Error creating PSK secret for cluster" w1).2)
    as Hpsk.
  { intros err w1 E. rewrite (Submariner_psk_fails _ _ _ E).
    destruct (Reporter.Error status _ _ w1) as [r w2].
    split; reflexivity. }
  assert (forall pskSecret w1 err w2,
            psk_step w = (inr pskSecret, w1) ->
            cr_step pskSecret w1 = (Some err, w2) ->
            log_of (run w)
            = [psk_call; cr_call pskSecret;
               reporter_Error_call (Some err) "Submariner deployment failed"])
    as Hcr.
  { intros pskSecret w1 err w2 E1 E2.
    rewrite (Submariner_cr_fails _ _ _ _ _ E1 E2).
    destruct (Reporter.Error status _ _ w2) as [r w3]. reflexivity. }
  assert (forall pskSecret w1 w2,
            psk_step w = (inr pskSecret, w1) ->
            cr_step pskSecret w1 = (None, w2) ->
            log_of (run w) = [psk_call; cr_call pskSecret] /\
            world_after (run w) = w2)
    as Hok.
  { intros pskSecret w1 w2 E1 E2.
    rewrite (Submariner_succeeds _ _ _ _ E1 E2). split; reflexivity. }
  assert ((calls is_secret_Ensure (log_of (run w)) <= 1)%nat /\
          (calls is_submarinercr_Ensure (log_of (run w)) <= 1)%nat) as Hcount.
  { destruct (psk_step w) as [[err|pskSecret] w1] eqn:E1.
    - destruct (Hpsk _ _ eq_refl) as [-> _].
      unfold calls. split; simpl; lia.
    - destruct (cr_step pskSecret w1) as [[err|] w2] eqn:E2.
      + rewrite (Hcr _ _ _ _ eq_refl E2).
        unfold calls. split; simpl; lia.
      + destruct (Hok _ _ _ eq_refl E2) as [-> _].
        unfold calls. split; simpl; lia. }
  destruct Hcount as [Hc1 Hc2].
  split; [exact Hc1|]. split; [exact Hc2|].
  split; [|split; [exact Hcr|exact Hok]].
  intros err w1 E. destruct (Hpsk _ _ E) as [Hlog Hw].
  split; [rewrite Hlog; reflexivity|]. split; assumption.
Qed.

End SubmarinerFacts.

(** ** [GenericCluster] *)

Section GenericClusterFacts.
Context {handles : Handles} {externals : Externals}.
Variables (clusterInfo : cluster_Info) (status : Reporter.t).

(** What [generic.RunOnCluster] does with the function it is given. *)
Local Abbreviation delegated :=
  (run_on_cluster clusterInfo status cleanup_function).

Lemma GenericCluster_unfold (w : World) :
  GenericCluster clusterInfo status w =
  let '(err, w1, log) := delegated w in
  let '(r, w2) :=
    Reporter.Error status err "Failed to cleanup generic K8s cluster" w1 in
  let '(_, w3) := Reporter.End_ status w2 in
  (r, w3,
   RunOnCluster_call clusterInfo
   :: log
   ++ [reporter_Error_call err "Failed to cleanup generic K8s cluster";
       reporter_End_call]).
Proof.
  unfold GenericCluster, defer, generic.RunOnCluster, status_Error,
    status_End, call.
  unfold mbind, M_bind, mret, M_ret.
  destruct (run_on_cluster _ _ _ w) as [[err w1] log].
  destruct (Reporter.Error status _ _ w1) as [r w2].
  destruct (Reporter.End_ status w2) as [u w3].
  rewrite app_nil_r, <- app_assoc. reflexivity.
Qed.

(** C5: [GenericCluster] makes one call of [generic.RunOnCluster], with a
    function that does nothing but call [Cleanup] of the deployer it is
    given; with a reporter that keeps the contract of [Error], the result
    is the error of that call wrapped with the cleanup message, and nil
    when that call returns nil. *)
Theorem GenericCluster_delegates (w : World) :
  reporter_contract status ->
  result (GenericCluster clusterInfo status w)
  = match result (delegated w) with
    | None => None
    | Some err =>
        Some (errors_Wrap err "Failed to cleanup generic K8s cluster")
    end /\
  log_of (GenericCluster clusterInfo status w)
  = RunOnCluster_call clusterInfo
    :: log_of (delegated w)
    ++ [reporter_Error_call (result (delegated w))
          "Failed to cleanup generic K8s cluster";
        reporter_End_call] /\
  calls is_RunOnCluster (log_of (GenericCluster clusterInfo status w))
  = S (calls is_RunOnCluster (log_of (delegated w))) /\
  (forall gwDeployer reporter w',
     cleanup_function gwDeployer reporter w'
     = let '(err, w'') := GatewayDeployer.Cleanup gwDeployer reporter w' in
       (err, w'', [Cleanup_call])).
Proof.
  intros [Hnil Hwrap]. rewrite GenericCluster_unfold.
  destruct (delegated w) as [[err w1] log].
  assert (forall e,
            calls is_RunOnCluster
              (RunOnCluster_call clusterInfo
               :: log
               ++ [reporter_Error_call e
                     "Failed to cleanup generic K8s cluster";
                   reporter_End_call])
            = S (calls is_RunOnCluster log)) as Hcount.
  { intros e. unfold calls. simpl. rewrite List.filter_app, length_app.
    simpl. lia. }
  destruct err as [err|].
  - specialize (Hwrap err "Failed to cleanup generic K8s cluster" w1).
    destruct (Reporter.Error status _ _ w1) as [r w2].
    destruct (Reporter.End_ status w2) as [u w3].
    simpl in Hwrap. subst r.
    split; [reflexivity|]. split; [reflexivity|]. split; [apply Hcount|].
    reflexivity.
  - rewrite Hnil. destruct (Reporter.End_ status w1) as [u w3].
    split; [reflexivity|]. split; [reflexivity|]. split; [apply Hcount|].
    reflexivity.
Qed.

End GenericClusterFacts.

(** ** The properties at work in the small world *)

Section ScenarioFacts.
Import Scenario.

Lemma terminal_keeps_contract : reporter_contract terminal.
Proof. split; reflexivity. Defined.

Example deploy_cluster1 :
  deploy "cluster1" "submariner-ipsec-psk"
  = (None,
     ["secret submariner-operator/submariner-ipsec-psk";
      "submariner submariner-operator/cluster1"],
     [secret_Ensure_call "submariner-operator" (psk "submariner-ipsec-psk");
      submarinercr_Ensure_call "submariner-operator"
        (populateSubmarinerSpec (options "cluster1")
           (brokerInfo "submariner-ipsec-psk") brokerSecret
           (psk "submariner-ipsec-psk") netconfig repositoryInfo)]).
Proof. vm_compute. reflexivity. Qed.

Example deploy_spec_fields :
  let spec :=
    populateSubmarinerSpec (options "cluster1")
      (brokerInfo "submariner-ipsec-psk") brokerSecret
      (psk "submariner-ipsec-psk") netconfig repositoryInfo in
  SubmarinerSpec.BrokerK8sApiServer spec = "broker.example.com:6443" /\
  SubmarinerSpec.CeIPSecPSK spec = "MDEyMzQ1Njc4OWFiY2RlZg==" /\
  SubmarinerSpec.BrokerK8sRemoteNamespace spec = "submariner-k8s-broker" /\
  SubmarinerSpec.CoreDNSCustomConfig spec
  = Some {| CoreDNSCustomConfig.ConfigMapName := "coredns-custom";
            CoreDNSCustomConfig.Namespace := "kube-system" |} /\
  SubmarinerSpec.CustomDomains spec = None.
Proof. vm_compute. repeat split; reflexivity. Qed.

Lemma not_contains_by_Index (s sub : string) :
  strings.Index s sub < 0 -> ~ contains s sub.
Proof.
  intros H (pre & post & E).
  destruct (Index_absent s sub H) as [_ Hno]. exact (Hno pre post E).
Defined.

(** C1 at ["a://b://c"], which has two instances of ["://"], and at a URL
    without one. *)
Lemma removeSchemaPrefix_spec_witness :
  (exists pre post,
     first_instance "a://b://c" "://" pre post /\
     removeSchemaPrefix "a://b://c" = post /\ post = "b://c") /\
  removeSchemaPrefix "broker.example.com" = "broker.example.com".
Proof.
  split.
  - destruct (removeSchemaPrefix_spec "a://b://c") as (H1 & _).
    destruct H1 as (pre & post & Hf & Hr).
    { exists "a", "b://c". reflexivity. }
    exists pre, post. split; [exact Hf|]. split; [exact Hr|].
    rewrite <- Hr. reflexivity.
  - destruct (removeSchemaPrefix_spec "broker.example.com") as (_ & _ & H3 & _).
    apply H3. apply not_contains_by_Index. reflexivity.
Defined.

(** C2 at a config map with a namespace and at one without. *)
Lemma getCustomCoreDNSParams_spec_witness :
  getCustomCoreDNSParams ("kube-system" +:+ "/" +:+ "coredns-custom")
  = ("kube-system", "coredns-custom") /\
  getCustomCoreDNSParams "coredns-custom" = ("", "coredns-custom").
Proof.
  destruct getCustomCoreDNSParams_spec as (_ & H2 & H3 & _). split.
  - apply H2; apply not_contains_by_Index; reflexivity.
  - apply H3; [discriminate|]. apply not_contains_by_Index. reflexivity.
Defined.

(** C9 with a global CIDR, a config map and one custom domain. *)
Lemma populateSubmarinerSpec_optional_fields_witness :
  let options' :=
    SubmarinerOptions.mk false false true false false false false false false
      4500 1 5 "cluster1" "libreswan" "kube-system/coredns-custom"
      "quay.io/submariner" "devel" "10.96.0.0/16" "10.244.0.0/16"
      (Some ["clusterset.example"]) in
  let spec :=
    populateSubmarinerSpec options' (brokerInfo "submariner-ipsec-psk")
      brokerSecret (psk "submariner-ipsec-psk")
      {| Config.GlobalCIDR := "242.0.0.0/8" |} repositoryInfo in
  SubmarinerSpec.GlobalCIDR spec = "242.0.0.0/8" /\
  SubmarinerSpec.CoreDNSCustomConfig spec
  = Some {| CoreDNSCustomConfig.ConfigMapName := "coredns-custom";
            CoreDNSCustomConfig.Namespace := "kube-system" |} /\
  SubmarinerSpec.CustomDomains spec = Some ["clusterset.example"].
Proof.
  intros options' spec.
  destruct (populateSubmarinerSpec_optional_fields options'
              (brokerInfo "submariner-ipsec-psk") brokerSecret
              (psk "submariner-ipsec-psk")
              {| Config.GlobalCIDR := "242.0.0.0/8" |} repositoryInfo)
    as (H1 & _ & _ & H4 & _ & H6).
  split; [apply H1; discriminate|].
  split; [apply H4; discriminate|].
  apply H6. reflexivity.
Defined.

(** C3 in the three outcomes: no PSK secret, no Submariner resource, and
    both. *)
Lemma Submariner_returns_wrapped_errors_witness :
  result (deploy "cluster1" "")
  = Some (errors_Wrap (errors_New "secret has no name")
            "Error creating PSK secret for cluster") /\
  result (deploy "" "submariner-ipsec-psk")
  = Some (errors_Wrap (errors_New "cluster ID is empty")
            "Submariner deployment failed") /\
  result (deploy "cluster1" "submariner-ipsec-psk") = None.
Proof.
  split; [|split].
  - destruct (Submariner_returns_wrapped_errors
                (handles := Scenario.handles) tt producer
                (options "cluster1") (brokerInfo "") brokerSecret netconfig
                repositoryInfo terminal [] terminal_keeps_contract)
      as (H1 & _).
    exact (H1 (errors_New "secret has no name") [] eq_refl).
  - destruct (Submariner_returns_wrapped_errors
                (handles := Scenario.handles) tt producer
                (options "") (brokerInfo "submariner-ipsec-psk") brokerSecret
                netconfig repositoryInfo terminal [] terminal_keeps_contract)
      as (_ & H2 & _).
    exact (H2 (psk "submariner-ipsec-psk")
              ["secret submariner-operator/submariner-ipsec-psk"]
              (errors_New "cluster ID is empty")
              ["secret submariner-operator/submariner-ipsec-psk"]
              eq_refl eq_refl).
  - destruct (Submariner_returns_wrapped_errors
                (handles := Scenario.handles) tt producer
                (options "cluster1") (brokerInfo "submariner-ipsec-psk")
                brokerSecret netconfig repositoryInfo terminal []
                terminal_keeps_contract)
      as (_ & _ & H3 & _).
    exact (H3 (psk "submariner-ipsec-psk")
              ["secret submariner-operator/submariner-ipsec-psk"]
              ["secret submariner-operator/submariner-ipsec-psk";
               "submariner submariner-operator/cluster1"]
              eq_refl eq_refl).
Defined.

(** C7 when the PSK secret cannot be created: nothing is applied, and the
    world holds the failure report only. *)
Lemma Submariner_no_retry_witness :
  calls is_submarinercr_Ensure (log_of (deploy "cluster1" "")) = 0%nat /\
  log_of (deploy "cluster1" "")
  = [secret_Ensure_call "submariner-operator" (psk "");
     reporter_Error_call (Some (errors_New "secret has no name"))
       "Error creating PSK secret for cluster"] /\
  world_after (deploy "cluster1" "")
  = ["failure: Error creating PSK secret for cluster: secret has no name"].
Proof.
  destruct (Submariner_no_retry (handles := Scenario.handles) tt producer (options "cluster1")
              (brokerInfo "") brokerSecret netconfig repositoryInfo
              terminal [])
    as (_ & _ & H3 & _).
  exact (H3 (errors_New "secret has no name") [] eq_refl).
Defined.

(** C5 on a cluster that is reached and on one that is not. *)
Lemma GenericCluster_delegates_witness :
  (result (GenericCluster "cluster1" terminal []) = None /\
   log_of (GenericCluster "cluster1" terminal [])
   = [RunOnCluster_call "cluster1"; Cleanup_call;
      reporter_Error_call None "Failed to cleanup generic K8s cluster";
      reporter_End_call]) /\
  result (GenericCluster "" terminal [])
  = Some (errors_Wrap (errors_New "cluster has no name")
            "Failed to cleanup generic K8s cluster").
Proof.
  split.
  - destruct (GenericCluster_delegates (handles := Scenario.handles)
                "cluster1" terminal []
                terminal_keeps_contract) as (H1 & H2 & _).
    split; [exact H1|exact H2].
  - destruct (GenericCluster_delegates (handles := Scenario.handles)
                "" terminal []
                terminal_keeps_contract) as (H1 & _).
    exact H1.
Defined.

End ScenarioFacts.

(** * Part III: further properties *)

(** ** [strings.Split] with the separator ["/"] *)

Lemma join_cons (piece : string) (rest : list string) (sep : string) :
  rest <> [] -> join (piece :: rest) sep = piece +:+ sep +:+ join rest sep.
Proof. destruct rest; [congruence|reflexivity]. Qed.

Lemma genSplit_join (sep : string) (fuel : nat) (s : string) :
  sep <> "" -> (String.length s <= fuel)%nat ->
  join (strings.genSplit fuel s sep) sep = s.
Proof.
  intros Hsep. revert s. induction fuel as [|fuel IH]; intros s Hlen.
  - destruct s; [|simpl in Hlen; lia].
    rewrite genSplit_eq, Index_empty by exact Hsep. reflexivity.
  - rewrite genSplit_eq.
    destruct (Z.ltb_spec (strings.Index s sep) 0) as [Hneg|Hpos];
      [reflexivity|].
    rewrite join_cons by apply Split_nonempty.
    destruct (Index_found _ _ Hpos) as (pre & post & E & Hpre).
    assert (0 < strings.len sep) as Hsl.
    { unfold strings.len. destruct sep; [congruence|].
      simpl String.length. lia. }
    assert (strings.slice_to s (strings.Index s sep) = pre) as ->.
    { rewrite <- Hpre, E. unfold strings.slice_to, strings.len.
      rewrite Nat2Z.id. apply take_app. }
    assert (strings.slice_from s (strings.Index s sep + strings.len sep)
            = post) as ->.
    { rewrite <- Hpre, E. unfold strings.slice_from, strings.len.
      rewrite <- Nat2Z.inj_add, Nat2Z.id.
      rewrite <- length_app_str, <- app_assoc_str. apply drop_app. }
    rewrite IH; [symmetry; exact E|].
    rewrite E, !length_app_str in Hlen. unfold strings.len in Hsl. lia.
Qed.

Lemma count_byte_app (c : ascii) (s t : string) :
  count_byte c (s +:+ t) = (count_byte c s + count_byte c t)%nat.
Proof.
  induction s as [|d s IH]; [reflexivity|].
  rewrite app_String, !count_byte_String, IH. lia.
Qed.

(** A string contains the one-byte string of [c] exactly when it has the
    byte [c]. *)
Lemma count_zero_not_contains (c : ascii) (s : string) :
  count_byte c s = 0%nat -> ~ contains s (String c "").
Proof.
  intros H0 (pre & post & ->).
  rewrite !count_byte_app, count_byte_String, Ascii.eqb_refl in H0. lia.
Qed.

Lemma not_contains_count_zero (c : ascii) (s : string) :
  ~ contains s (String c "") -> count_byte c s = 0%nat.
Proof.
  induction s as [|d s IH]; intros Hno; [reflexivity|].
  rewrite count_byte_String.
  destruct (Stdlib.Strings.Ascii.eqb c d) eqn:E.
  - apply Ascii.eqb_eq in E. subst d. exfalso. apply Hno.
    exists "", s. reflexivity.
  - rewrite IH; [reflexivity|]. intros (pre & post & ->). apply Hno.
    exists (String d pre), post. reflexivity.
Qed.

Lemma Split_slash_pieces (n : nat) (s : string) :
  count_byte "/" s = n ->
  length (strings.Split s "/") = S n /\
  Forall (fun piece => ~ contains piece "/") (strings.Split s "/").
Proof.
  revert s. induction n as [|n IH]; intros s Hn.
  - apply count_zero_not_contains in Hn as Hno.
    rewrite slash_not_in_empty_tail by exact Hno.
    split; [reflexivity|]. constructor; [exact Hno|constructor].
  - destruct (cut_at_first_slash s) as (a & rest & -> & Ha & Hc); [lia|].
    rewrite Split_slash by exact Ha.
    destruct (IH rest) as [Hlen Hall]; [lia|].
    split; [simpl; rewrite Hlen; reflexivity|].
    constructor; assumption.
Qed.

(** X1: splitting at a non-empty separator loses nothing: the pieces put
    back together with the separator between them are the string. *)
Theorem Split_join (s sep : string) :
  sep <> "" -> join (strings.Split s sep) sep = s.
Proof. intros Hsep. apply genSplit_join; [exact Hsep|lia]. Qed.

Lemma Split_join_witness :
  join (strings.Split "kube-system/coredns//x" "/") "/"
  = "kube-system/coredns//x".
Proof. apply Split_join. discriminate. Defined.

(** X2: splitting at ["/"] gives one piece more than there are ["/"] in the
    string, and no piece contains ["/"]. *)
Theorem Split_slash_count (s : string) :
  length (strings.Split s "/") = S (count_byte "/" s) /\
  Forall (fun piece => ~ contains piece "/") (strings.Split s "/").
Proof. apply Split_slash_pieces. reflexivity. Qed.

(** ** More on [getCustomCoreDNSParams] *)

Lemma getCustomCoreDNSParams_no_sep (s : string) :
  ~ contains s "/" -> getCustomCoreDNSParams s = ("", s).
Proof.
  intros Hno. unfold getCustomCoreDNSParams. case_bool_decide as Hs.
  - rewrite slash_not_in_empty_tail by exact Hno. reflexivity.
  - destruct s; [reflexivity|discriminate].
Qed.

Lemma Split_slash_first_piece (rest : string) :
  ~ contains (at_index (strings.Split rest "/") 0) "/".
Proof.
  destruct (Split_slash_pieces _ rest eq_refl) as [_ Hall].
  destruct (strings.Split rest "/") as [|piece l].
  - apply not_contains_empty. discriminate.
  - inversion Hall; assumption.
Qed.

(** X3: neither result of [getCustomCoreDNSParams] ever contains ["/"]. *)
Theorem getCustomCoreDNSParams_no_slash (s : string) :
  ~ contains (getCustomCoreDNSParams s).1 "/" /\
  ~ contains (getCustomCoreDNSParams s).2 "/".
Proof.
  destruct (count_byte "/" s) as [|n] eqn:Hn.
  - apply count_zero_not_contains in Hn as Hno.
    rewrite getCustomCoreDNSParams_no_sep by exact Hno.
    split; [apply not_contains_empty; discriminate|exact Hno].
  - destruct (cut_at_first_slash s) as (a & rest & -> & Ha & _); [lia|].
    rewrite getCustomCoreDNSParams_two by exact Ha.
    split; [exact Ha|apply Split_slash_first_piece].
Qed.

(** X4: the two results put back together with ["/"] are the argument
    exactly when the argument has one ["/"]: without a ["/"] the namespace
    is empty, and with more than one the rest is lost. *)
Theorem getCustomCoreDNSParams_rejoin (s : string) :
  (getCustomCoreDNSParams s).1 +:+ "/" +:+ (getCustomCoreDNSParams s).2 = s
  <-> count_byte "/" s = 1%nat.
Proof.
  destruct (count_byte "/" s) as [|[|n]] eqn:Hn.
  - apply count_zero_not_contains in Hn as Hno.
    rewrite getCustomCoreDNSParams_no_sep by exact Hno.
    split; [|discriminate]. intros E.
    apply (f_equal String.length) in E. cbn [fst snd] in E.
    rewrite !length_app_str in E. simpl in E. lia.
  - destruct (cut_at_first_slash s) as (a & rest & -> & Ha & Hc); [lia|].
    rewrite getCustomCoreDNSParams_two by exact Ha.
    assert (~ contains rest "/") as Hrest
      by (apply count_zero_not_contains; lia).
    rewrite slash_not_in_empty_tail by exact Hrest.
    split; reflexivity.
  - destruct (cut_at_first_slash s) as (a & t & -> & Ha & Hc); [lia|].
    destruct (cut_at_first_slash t) as (b & rest & -> & Hb & _); [lia|].
    destruct (getCustomCoreDNSParams_three a b rest Ha Hb) as [-> _].
    split; [|discriminate]. intros E.
    apply (f_equal String.length) in E. cbn [fst snd] in E.
    rewrite !length_app_str in E. simpl in E. lia.
Qed.

(** ** More on [removeSchemaPrefix] *)

Lemma removeSchemaPrefix_cases (s : string) :
  (~ contains s "://" /\ removeSchemaPrefix s = s) \/
  (exists pre, s = pre +:+ "://" +:+ removeSchemaPrefix s).
Proof.
  destruct (Z.ltb_spec (strings.Index s "://") 0) as [Hneg|Hpos].
  - left. assert (~ contains s "://") as Hno.
    { intros (pre & post & E).
      destruct (Index_absent _ _ Hneg) as [_ H]. exact (H _ _ E). }
    split; [exact Hno|apply removeSchemaPrefix_absent; exact Hno].
  - right. destruct (contains_first_instance s "://") as (pre & post & Hf).
    { destruct (Index_found _ _ Hpos) as (pre & post & E & _).
      exists pre, post. exact E. }
    exists pre. rewrite (removeSchemaPrefix_first _ _ _ Hf). apply Hf.
Qed.

(** X5: the result of [removeSchemaPrefix] is the end of its argument: all
    of it, or all but a beginning of at least three bytes that ends with
    ["://"]. *)
Theorem removeSchemaPrefix_suffix (s : string) :
  exists pre,
    s = pre +:+ removeSchemaPrefix s /\
    (pre = "" \/
     (3 <= String.length pre)%nat /\ exists scheme, pre = scheme +:+ "://").
Proof.
  destruct (removeSchemaPrefix_cases s) as [[_ E]|[pre E]].
  - exists "". rewrite E. split; [reflexivity|left; reflexivity].
  - exists (pre +:+ "://"). rewrite app_assoc_str. split; [exact E|].
    right. split; [rewrite length_app_str; simpl; lia|].
    exists pre. reflexivity.
Qed.

(** X6: only one prefix is removed.  Applying [removeSchemaPrefix] to its
    own result changes nothing exactly when that result has no ["://"]
    left. *)
Theorem removeSchemaPrefix_once (s : string) :
  removeSchemaPrefix (removeSchemaPrefix s) = removeSchemaPrefix s
  <-> ~ contains (removeSchemaPrefix s) "://".
Proof.
  set (r := removeSchemaPrefix s). split.
  - intros E Hc. destruct (removeSchemaPrefix_cases r) as [[Hno _]|[pre E']].
    + exact (Hno Hc).
    + rewrite E in E'. apply (f_equal String.length) in E'.
      rewrite !length_app_str in E'. simpl in E'. lia.
  - apply removeSchemaPrefix_absent.
Qed.

(** X7: a scheme without [':'] is removed whole, with the ["://"] after it,
    and nothing else is. *)
Theorem removeSchemaPrefix_scheme (scheme rest : string) :
  count_byte ":" scheme = 0%nat ->
  removeSchemaPrefix (scheme +:+ "://" +:+ rest) = rest.
Proof.
  intros Hc. apply (removeSchemaPrefix_first _ scheme rest).
  split; [reflexivity|].
  intros pre' post' E.
  destruct (Nat.le_gt_cases (String.length scheme) (String.length pre'))
    as [Hle|Hlt]; [exact Hle|].
  destruct (app_inv_shorter _ _ _ _ E Hlt) as (c & u & Ea & Et).
  rewrite !app_String in Et. injection Et as <- _.
  rewrite Ea, count_byte_app, count_byte_String, Ascii.eqb_refl in Hc. lia.
Qed.

Lemma removeSchemaPrefix_scheme_witness :
  removeSchemaPrefix ("https" +:+ "://" +:+ "broker.example.com:6443/a://b")
  = "broker.example.com:6443/a://b".
Proof. apply removeSchemaPrefix_scheme. reflexivity. Defined.

(** ** More on [populateSubmarinerSpec] *)

Section PopulateMore.
Context {constants : Constants}.
Variables (options : SubmarinerOptions.t) (brokerInfo : Info.t).
Variables (brokerSecret pskSecret : Secret.t) (netconfig : Config.t).
Variable repositoryInfo : RepositoryInfo.t.

Local Abbreviation spec :=
  (populateSubmarinerSpec options brokerInfo brokerSecret pskSecret netconfig
     repositoryInfo).

Lemma Data_at_with_data (key value k : string) (secret : Secret.t) :
  k <> key ->
  Secret.Data_at (with_data key value secret) k = Secret.Data_at secret k.
Proof.
  intros Hne. unfold Secret.Data_at, with_data. simpl.
  rewrite lookup_insert_ne by congruence. reflexivity.
Qed.

(** X8: a key that is missing from a secret gives an empty field, not a
    failure: the CA, the remote namespace and the token of the broker
    secret, and the PSK.  A key that is there gives its value, the CA and
    the PSK in base64. *)
Theorem populateSubmarinerSpec_secret_keys :
  (Secret.Data brokerSecret !! "ca.crt" = None ->
   SubmarinerSpec.BrokerK8sCA spec = "") /\
  (Secret.Data brokerSecret !! "namespace" = None ->
   SubmarinerSpec.BrokerK8sRemoteNamespace spec = "") /\
  (Secret.Data brokerSecret !! "token" = None ->
   SubmarinerSpec.BrokerK8sApiServerToken spec = "") /\
  (Secret.Data (Info.IPSecPSK brokerInfo) !! "psk" = None ->
   SubmarinerSpec.CeIPSecPSK spec = "") /\
  (forall v, Secret.Data brokerSecret !! "ca.crt" = Some v ->
   SubmarinerSpec.BrokerK8sCA spec = base64.EncodeToString v) /\
  (forall v, Secret.Data brokerSecret !! "namespace" = Some v ->
   SubmarinerSpec.BrokerK8sRemoteNamespace spec = v) /\
  (forall v, Secret.Data brokerSecret !! "token" = Some v ->
   SubmarinerSpec.BrokerK8sApiServerToken spec = v) /\
  (forall v, Secret.Data (Info.IPSecPSK brokerInfo) !! "psk" = Some v ->
   SubmarinerSpec.CeIPSecPSK spec = base64.EncodeToString v).
Proof.
  repeat split; intros; populate_cases; simpl; unfold Secret.Data_at;
    match goal with H : _ !! _ = _ |- _ => rewrite H end; reflexivity.
Qed.

(** X9: the repository and the image version of the options are not used:
    the repository and the version of the result are those of the
    repository information, and the result is the same whatever the two
    options are. *)
Theorem populateSubmarinerSpec_image (repository imageVersion : string) :
  SubmarinerSpec.Repository spec = RepositoryInfo.Name repositoryInfo /\
  SubmarinerSpec.Version spec = RepositoryInfo.Version repositoryInfo /\
  populateSubmarinerSpec (with_image repository imageVersion options)
    brokerInfo brokerSecret pskSecret netconfig repositoryInfo
  = spec.
Proof.
  split; [populate_cases|]. split; [populate_cases|].
  unfold populateSubmarinerSpec, with_image. reflexivity.
Qed.

(** X10: of the secret that [secret.Ensure] returned only the name is
    used: two secrets with one name give one result, whatever their
    data. *)
Theorem populateSubmarinerSpec_psk_name (pskSecret' : Secret.t) :
  Secret.Name pskSecret' = Secret.Name pskSecret ->
  SubmarinerSpec.CeIPSecPSKSecret spec = Secret.Name pskSecret /\
  populateSubmarinerSpec options brokerInfo brokerSecret pskSecret' netconfig
    repositoryInfo
  = spec.
Proof.
  intros E. split; [populate_cases|].
  unfold populateSubmarinerSpec. rewrite E. reflexivity.
Qed.

(** X11: of the data of the broker secret only the keys ["ca.crt"],
    ["namespace"] and ["token"] are read, and of the data of the PSK only
    ["psk"]: an entry under another key changes nothing in the result. *)
Theorem populateSubmarinerSpec_other_keys (key value : string) :
  (key <> "ca.crt" -> key <> "namespace" -> key <> "token" ->
   populateSubmarinerSpec options brokerInfo (with_data key value brokerSecret)
     pskSecret netconfig repositoryInfo
   = spec) /\
  (key <> "psk" ->
   populateSubmarinerSpec options
     (with_IPSecPSK (with_data key value (Info.IPSecPSK brokerInfo))
        brokerInfo)
     brokerSecret pskSecret netconfig repositoryInfo
   = spec).
Proof.
  split.
  - intros H1 H2 H3. unfold populateSubmarinerSpec.
    rewrite !Data_at_with_data by congruence. reflexivity.
  - intros H1. unfold populateSubmarinerSpec, with_IPSecPSK. simpl.
    rewrite !Data_at_with_data by congruence. reflexivity.
Qed.

End PopulateMore.

(** ** More on [Submariner] *)

Section SubmarinerMore.
Context {handles : Handles} {externals : Externals} {constants : Constants}.
Variables (ctx : context_Context) (clientProducer : Producer.t).
Variables (options : SubmarinerOptions.t) (brokerInfo : Info.t).
Variables (brokerSecret : Secret.t) (netconfig : Config.t).
Variables (repositoryInfo : RepositoryInfo.t) (status : Reporter.t).

Local Abbreviation run :=
  (Submariner ctx clientProducer options brokerInfo brokerSecret netconfig
     repositoryInfo status).

Local Abbreviation psk_step :=
  (ensure_secret ctx (Producer.ForKubernetes clientProducer)
     OperatorNamespace (Info.IPSecPSK brokerInfo)).

Local Abbreviation cr_spec pskSecret :=
  (populateSubmarinerSpec options brokerInfo brokerSecret pskSecret netconfig
     repositoryInfo).

Local Abbreviation cr_step pskSecret :=
  (ensure_submarinercr ctx (Producer.ForGeneral clientProducer)
     OperatorNamespace (cr_spec pskSecret)).

(** The three runs there are, by the outcome of the two steps. *)
Lemma Submariner_runs (w : World) :
  (exists err w1,
     psk_step w = (inl err, w1) /\
     run w =
     (let '(r, w2) :=
        Reporter.Error status (Some err)
          "Error creating PSK secret for cluster" w1 in
      (r, w2,
       [secret_Ensure_call OperatorNamespace (Info.IPSecPSK brokerInfo);
        reporter_Error_call (Some err)
          "Error creating PSK secret for cluster"]))) \/
  (exists pskSecret w1 err w2,
     psk_step w = (inr pskSecret, w1) /\
     cr_step pskSecret w1 = (Some err, w2) /\
     run w =
     (let '(r, w3) :=
        Reporter.Error status (Some err) "Submariner deployment failed" w2 in
      (r, w3,
       [secret_Ensure_call OperatorNamespace (Info.IPSecPSK brokerInfo);
        submarinercr_Ensure_call OperatorNamespace (cr_spec pskSecret);
        reporter_Error_call (Some err) "Submariner deployment failed"]))) \/
  (exists pskSecret w1 w2,
     psk_step w = (inr pskSecret, w1) /\
     cr_step pskSecret w1 = (None, w2) /\
     run w =
     (None, w2,
      [secret_Ensure_call OperatorNamespace (Info.IPSecPSK brokerInfo);
       submarinercr_Ensure_call OperatorNamespace (cr_spec pskSecret)])).
Proof.
  destruct (psk_step w) as [[err|pskSecret] w1] eqn:E1.
  - left. exists err, w1. split; [reflexivity|].
    apply Submariner_psk_fails. exact E1.
  - destruct (cr_step pskSecret w1) as [[err|] w2] eqn:E2.
    + right. left. exists pskSecret, w1, err, w2.
      split; [reflexivity|]. split; [exact E2|].
      apply Submariner_cr_fails with (w1 := w1); assumption.
    + right. right. exists pskSecret, w1, w2.
      split; [reflexivity|]. split; [exact E2|].
      apply Submariner_succeeds with (w1 := w1); assumption.
Qed.

(** X12: when the PSK secret is there, the Submariner resource that is
    applied names the secret [secret.Ensure] returned, and goes to the
    namespace that call was made for; its PSK is the one of the broker
    information, in base64. *)
Theorem Submariner_applies_returned_secret (w w1 : World)
    (pskSecret : Secret.t) :
  psk_step w = (inr pskSecret, w1) ->
  exists spec,
    log_of (run w) !! 1%nat
    = Some (submarinercr_Ensure_call OperatorNamespace spec) /\
    log_of (run w) !! 0%nat
    = Some (secret_Ensure_call OperatorNamespace
              (Info.IPSecPSK brokerInfo)) /\
    SubmarinerSpec.CeIPSecPSKSecret spec = Secret.Name pskSecret /\
    SubmarinerSpec.Namespace spec = OperatorNamespace /\
    SubmarinerSpec.CeIPSecPSK spec
    = base64.EncodeToString
        (Secret.Data_at (Info.IPSecPSK brokerInfo) "psk").
Proof.
  intros E1. exists (cr_spec pskSecret).
  assert (SubmarinerSpec.CeIPSecPSKSecret (cr_spec pskSecret)
          = Secret.Name pskSecret /\
          SubmarinerSpec.Namespace (cr_spec pskSecret) = OperatorNamespace /\
          SubmarinerSpec.CeIPSecPSK (cr_spec pskSecret)
          = base64.EncodeToString
              (Secret.Data_at (Info.IPSecPSK brokerInfo) "psk")) as Hspec
    by (repeat split; populate_cases).
  destruct (Submariner_runs w)
    as [(err & w1' & E & _)
       |[(p & w1' & err & w2 & E & _ & ->)|(p & w1' & w2 & E & _ & ->)]];
    rewrite E1 in E; try discriminate; injection E as <- <-.
  - destruct (Reporter.Error status _ _ w2) as [r w3].
    split; [reflexivity|]. split; [reflexivity|exact Hspec].
  - split; [reflexivity|]. split; [reflexivity|exact Hspec].
Qed.

(** X13: how [Submariner] uses the reporter, whatever the reporter does:
    [Error] is called at most once and never with a nil error, [End] is
    never called, and a run in which both steps succeed does not call the
    reporter at all. *)
Theorem Submariner_reporter_use (w : World) :
  (calls is_reporter_Error (log_of (run w)) <= 1)%nat /\
  calls reports_nil (log_of (run w)) = 0%nat /\
  calls is_reporter_End (log_of (run w)) = 0%nat /\
  (forall pskSecret w1 w2,
     psk_step w = (inr pskSecret, w1) ->
     cr_step pskSecret w1 = (None, w2) ->
     calls is_reporter_Error (log_of (run w)) = 0%nat).
Proof.
  destruct (Submariner_runs w)
    as [(err & w1' & E & ->)
       |[(p & w1' & err & w2' & E & E' & ->)|(p & w1' & w2' & E & E' & ->)]].
  - destruct (Reporter.Error status _ _ w1') as [r w3].
    repeat split; try (unfold calls; simpl; lia).
    intros pskSecret w1 w2 E1. rewrite E1 in E. discriminate.
  - destruct (Reporter.Error status _ _ w2') as [r w3].
    repeat split; try (unfold calls; simpl; lia).
    intros pskSecret w1 w2 E1 E2. rewrite E1 in E. injection E as <- <-.
    rewrite E2 in E'. discriminate.
  - repeat split; unfold calls; simpl; lia.
Qed.

(** X14: whatever the reporter does, [Submariner] returns nil when both
    steps succeed, and otherwise exactly what [status.Error] returned for
    the error of the failing step: an error result always means a failed
    step. *)
Theorem Submariner_result_any_reporter (w : World) :
  (result (run w) <> None ->
   (exists err w1, psk_step w = (inl err, w1)) \/
   (exists pskSecret w1 err w2,
      psk_step w = (inr pskSecret, w1) /\
      cr_step pskSecret w1 = (Some err, w2))) /\
  (forall err w1,
     psk_step w = (inl err, w1) ->
     result (run w)
     = (Reporter.Error status (Some err)
          "Error creating PSK secret for cluster" w1).1) /\
  (forall pskSecret w1 err w2,
     psk_step w = (inr pskSecret, w1) ->
     cr_step pskSecret w1 = (Some err, w2) ->
     result (run w)
     = (Reporter.Error status (Some err) "Submariner deployment failed"
          w2).1).
Proof.
  split; [|split].
  - destruct (Submariner_runs w)
      as [(err & w1' & E & _)
         |[(p & w1' & err & w2' & E & E' & _)|(p & w1' & w2' & _ & _ & ->)]].
    + intros _. left. exists err, w1'. exact E.
    + intros _. right. exists p, w1', err, w2'. split; assumption.
    + intros H. exfalso. apply H. reflexivity.
  - intros err w1 E. rewrite (Submariner_psk_fails _ _ _ _ _ _ _ _ _ _ _ E).
    destruct (Reporter.Error status _ _ w1) as [r w2]. reflexivity.
  - intros pskSecret w1 err w2 E1 E2.
    rewrite (Submariner_cr_fails _ _ _ _ _ _ _ _ _ _ _ _ _ E1 E2).
    destruct (Reporter.Error status _ _ w2) as [r w3]. reflexivity.
Qed.

End SubmarinerMore.

(** ** More on [GenericCluster] *)

Section GenericClusterMore.
Context {handles : Handles} {externals : Externals}.
Variables (clusterInfo : cluster_Info) (status : Reporter.t).

(** X15: when [generic.RunOnCluster] reaches the cluster and runs the
    function it is given on the deployer [gwDeployer], [GenericCluster]
    cleans up once: the calls are [RunOnCluster], [Cleanup], [Error] with
    the error of the cleanup, and [End]; each works in the world the one
    before left; the result is what [Error] returned, which under the
    contract of [Error] is the error of the cleanup wrapped, or nil. *)
Theorem GenericCluster_cleans_up_once (gwDeployer : GatewayDeployer.t)
    (w : World) :
  (forall function w',
     run_on_cluster clusterInfo status function w'
     = function gwDeployer status w') ->
  let cleaned := GatewayDeployer.Cleanup gwDeployer status w in
  let reported :=
    Reporter.Error status cleaned.1 "Failed to cleanup generic K8s cluster"
      cleaned.2 in
  log_of (GenericCluster clusterInfo status w)
  = [RunOnCluster_call clusterInfo; Cleanup_call;
     reporter_Error_call cleaned.1 "Failed to cleanup generic K8s cluster";
     reporter_End_call] /\
  world_after (GenericCluster clusterInfo status w)
  = (Reporter.End_ status reported.2).2 /\
  result (GenericCluster clusterInfo status w) = reported.1 /\
  (reporter_contract status ->
   result (GenericCluster clusterInfo status w)
   = match cleaned.1 with
     | None => None
     | Some err =>
         Some (errors_Wrap err "Failed to cleanup generic K8s cluster")
     end).
Proof.
  intros Hrun cleaned reported. rewrite GenericCluster_unfold, Hrun.
  unfold cleanup_function, gwDeployer_Cleanup, call.
  subst reported. subst cleaned.
  destruct (GatewayDeployer.Cleanup gwDeployer status w) as [err w1].
  cbn [fst snd].
  destruct (Reporter.Error status err _ w1) as [r w2] eqn:E.
  cbn [fst snd].
  destruct (Reporter.End_ status w2) as [u w3]. cbn [fst snd].
  split; [reflexivity|]. split; [reflexivity|]. split; [reflexivity|].
  intros [Hnil Hwrap]. unfold result. cbn [fst].
  destruct err as [err|].
  - specialize (Hwrap err "Failed to cleanup generic K8s cluster" w1).
    rewrite E in Hwrap. exact Hwrap.
  - rewrite Hnil in E. congruence.
Qed.

End GenericClusterMore.

(** ** [base64.EncodeToString] *)

Section Base64Facts.
Import base64 base64_inverse.
Local Open Scope N_scope.

(** Strings by groups of three bytes. *)
Lemma string_ind3 (P : string -> Prop) :
  P "" -> (forall a, P (String a "")) ->
  (forall a b, P (String a (String b ""))) ->
  (forall a b c rest, P rest -> P (String a (String b (String c rest)))) ->
  forall s, P s.
Proof.
  intros H0 H1 H2 H3.
  refine (fix go (s : string) : P s :=
            match s with
            | "" => H0
            | String a "" => H1 a
            | String a (String b "") => H2 a b
            | String a (String b (String c rest)) => H3 a b c rest (go rest)
            end).
Qed.

Lemma EncodeToString_3 (a b c : ascii) (rest : string) :
  EncodeToString (String a (String b (String c rest)))
  = (let val :=
       N.lor (N.lor (N.shiftl (byte a) 16) (N.shiftl (byte b) 8)) (byte c) in
     String (enc (N.shiftr val 18)) (String (enc (N.shiftr val 12))
       (String (enc (N.shiftr val 6)) (String (enc val)
         (EncodeToString rest))))).
Proof. reflexivity. Qed.

(** X16: the encoding has four characters for every three bytes, the last
    group filled up: its length is four times the number of groups. *)
Theorem EncodeToString_length (src : string) :
  String.length (EncodeToString src)
  = (4 * ((String.length src + 2) / 3))%nat.
Proof.
  induction src as [|a|a b|a b c rest IH] using string_ind3;
    try reflexivity.
  rewrite EncodeToString_3. cbv zeta. simpl String.length. rewrite IH.
  replace (S (S (S (String.length rest))) + 2)%nat
    with (1 * 3 + (String.length rest + 2))%nat by lia.
  rewrite Nat.div_add_l by lia. lia.
Qed.

(** Division and remainder by a constant, for [lia]. *)
Ltac Zify.zify_post_hook ::= Z.to_euclidean_division_equations.

Lemma byte_bound (a : ascii) : byte a < 256.
Proof. apply N_ascii_bounded. Qed.

(** Below [2^k] and from [2^k] on, the bits of the two numbers do not meet:
    their bitwise or is their sum. *)
Lemma lor_disjoint (x c k : N) : c < 2 ^ k -> N.lor (x * 2 ^ k) c = x * 2 ^ k + c.
Proof.
  intros Hc.
  assert (N.land (x * 2 ^ k) c = 0) as Hland.
  { apply N.bits_inj. intros m. rewrite N.land_spec, N.bits_0.
    destruct (N.lt_ge_cases m k) as [Hlt|Hge].
    - rewrite N.mul_pow2_bits_low by exact Hlt. reflexivity.
    - rewrite <- (N.mod_small c (2 ^ k)) by exact Hc.
      rewrite N.mod_pow2_bits_high by exact Hge. apply andb_false_r. }
  rewrite N.add_nocarry_lxor by exact Hland.
  symmetry. apply N.lxor_lor. exact Hland.
Qed.

(** The 24 bits of a group, and the bytes back from its four 6-bit
    values. *)
Lemma group_value (a b c : N) :
  a < 256 -> b < 256 -> c < 256 ->
  N.lor (N.lor (N.shiftl a 16) (N.shiftl b 8)) c = a * 65536 + b * 256 + c.
Proof.
  intros Ha Hb Hc. rewrite !N.shiftl_mul_pow2.
  rewrite (lor_disjoint a (b * 2 ^ 8) 16)
    by (change (2 ^ 16) with 65536; change (2 ^ 8) with 256; lia).
  replace (a * 2 ^ 16 + b * 2 ^ 8) with ((a * 2 ^ 8 + b) * 2 ^ 8)
    by (change (2 ^ 16) with 65536; change (2 ^ 8) with 256; lia).
  rewrite (lor_disjoint (a * 2 ^ 8 + b) c 8) by exact Hc.
  change (2 ^ 8) with 256. lia.
Qed.

Lemma group_bytes (a b c : N) :
  a < 256 -> b < 256 -> c < 256 ->
  let val := a * 65536 + b * 256 + c in
  let v1 := N.land (N.shiftr val 18) 63 in
  let v2 := N.land (N.shiftr val 12) 63 in
  let v3 := N.land (N.shiftr val 6) 63 in
  let v4 := N.land val 63 in
  N.lor (N.shiftl v1 2) (N.shiftr v2 4) = a /\
  N.lor (N.shiftl (N.land v2 15) 4) (N.shiftr v3 2) = b /\
  N.lor (N.shiftl (N.land v3 3) 6) v4 = c.
Proof.
  intros Ha Hb Hc val v1 v2 v3 v4. subst v1 v2 v3 v4.
  change 63 with (N.ones 6). change 15 with (N.ones 4).
  change 3 with (N.ones 2).
  rewrite !N.land_ones, !N.shiftr_div_pow2, !N.shiftl_mul_pow2.
  change (2 ^ 18) with 262144. change (2 ^ 12) with 4096.
  change (2 ^ 6) with 64. change (2 ^ 4) with 16. change (2 ^ 2) with 4.
  assert (forall x y k n, 2 ^ k = n -> y < n -> N.lor (x * n) y = x * n + y)
    as Hlor by (intros x y k n <-; apply lor_disjoint).
  rewrite (Hlor _ _ 2 4 eq_refl), (Hlor _ _ 4 16 eq_refl),
    (Hlor _ _ 6 64 eq_refl).
  - subst val. repeat split; lia.
  - subst val. lia.
  - subst val. lia.
  - subst val. lia.
Qed.

(** Every 6-bit value has its own character in the alphabet, and none has
    the padding character. *)
Lemma alphabet_checked :
  forallb
    (fun i : nat =>
       match dec (enc (N.of_nat i)) with
       | Some j => N.eqb j (N.of_nat i) && negb (is_pad (enc (N.of_nat i)))
       | None => false
       end)
    (seq 0 64)
  = true.
Proof. vm_compute. reflexivity. Qed.

Lemma dec_enc_small (i : N) :
  i < 64 -> dec (enc i) = Some i /\ is_pad (enc i) = false.
Proof.
  intros Hi. pose proof alphabet_checked as H.
  rewrite forallb_forall in H.
  assert (In (N.to_nat i) (seq 0 64)) as Hin by (apply in_seq; lia).
  specialize (H (N.to_nat i) Hin). rewrite N2Nat.id in H.
  destruct (dec (enc i)) as [j|]; [|discriminate].
  apply andb_prop in H as [Hj Hp].
  apply N.eqb_eq in Hj. subst j. split; [reflexivity|].
  destruct (is_pad (enc i)); [discriminate|reflexivity].
Qed.

Lemma enc_land (v : N) : enc v = enc (N.land v 63).
Proof. unfold enc. rewrite <- N.land_assoc. reflexivity. Qed.

Lemma dec_enc (v : N) :
  dec (enc v) = Some (N.land v 63) /\ is_pad (enc v) = false.
Proof.
  rewrite enc_land. apply dec_enc_small.
  change 63 with (N.ones 6). rewrite N.land_ones.
  apply N.mod_lt. discriminate.
Qed.

Lemma Decode_4 (c1 c2 c3 c4 : ascii) (rest : string) :
  Decode (String c1 (String c2 (String c3 (String c4 rest))))
  = match dec c1, dec c2 with
    | Some v1, Some v2 =>
        if is_pad c3 then
          if is_pad c4 && bool_decide (rest = "")
          then Some (String (byte1 v1 v2) "")
          else None
        else
          match dec c3 with
          | Some v3 =>
              if is_pad c4 then
                if bool_decide (rest = "")
                then Some (String (byte1 v1 v2) (String (byte2 v2 v3) ""))
                else None
              else
                match dec c4, Decode rest with
                | Some v4, Some bytes =>
                    Some (String (byte1 v1 v2) (String (byte2 v2 v3)
                           (String (byte3 v3 v4) bytes)))
                | _, _ => None
                end
          | None => None
          end
    | _, _ => None
    end.
Proof. reflexivity. Qed.

(** The three bytes of a group come back from its four characters. *)
Lemma group_decoded (a b c : ascii) :
  let val :=
    N.lor (N.lor (N.shiftl (byte a) 16) (N.shiftl (byte b) 8)) (byte c) in
  let v1 := N.land (N.shiftr val 18) 63 in
  let v2 := N.land (N.shiftr val 12) 63 in
  let v3 := N.land (N.shiftr val 6) 63 in
  let v4 := N.land val 63 in
  byte1 v1 v2 = a /\ byte2 v2 v3 = b /\ byte3 v3 v4 = c.
Proof.
  intros val v1 v2 v3 v4. subst v1 v2 v3 v4 val.
  rewrite group_value by apply byte_bound.
  destruct (group_bytes (byte a) (byte b) (byte c))
    as (H1 & H2 & H3); try apply byte_bound.
  unfold byte1, byte2, byte3. cbv zeta in H1, H2, H3.
  rewrite H1, H2, H3. unfold byte.
  rewrite !ascii_N_embedding. repeat split.
Qed.

Lemma Decode_EncodeToString (src : string) :
  Decode (EncodeToString src) = Some src.
Proof.
  induction src as [|a|a b|a b c rest IH] using string_ind3.
  - reflexivity.
  - change (EncodeToString (String a ""))
      with (let val := N.shiftl (byte a) 16 in
            String (enc (N.shiftr val 18))
              (String (enc (N.shiftr val 12)) "==")).
    cbv zeta. rewrite Decode_4.
    destruct (dec_enc (N.shiftr (N.shiftl (byte a) 16) 18)) as [-> _].
    destruct (dec_enc (N.shiftr (N.shiftl (byte a) 16) 12)) as [-> _].
    change (is_pad "=") with true. cbn [andb].
    rewrite bool_decide_eq_true_2 by reflexivity.
    destruct (group_decoded a "000"%char "000"%char) as (H1 & _).
    cbv zeta in H1. change (byte "000") with 0 in H1.
    rewrite N.shiftl_0_l, !N.lor_0_r in H1. rewrite H1. reflexivity.
  - change (EncodeToString (String a (String b "")))
      with (let val := N.lor (N.shiftl (byte a) 16) (N.shiftl (byte b) 8) in
            String (enc (N.shiftr val 18)) (String (enc (N.shiftr val 12))
              (String (enc (N.shiftr val 6)) "="))).
    cbv zeta. rewrite Decode_4.
    set (val := N.lor (N.shiftl (byte a) 16) (N.shiftl (byte b) 8)).
    destruct (dec_enc (N.shiftr val 18)) as [-> _].
    destruct (dec_enc (N.shiftr val 12)) as [-> _].
    destruct (dec_enc (N.shiftr val 6)) as [-> ->].
    change (is_pad "=") with true.
    rewrite bool_decide_eq_true_2 by reflexivity.
    destruct (group_decoded a b "000"%char) as (H1 & H2 & _).
    cbv zeta in H1, H2. change (byte "000") with 0 in H1, H2.
    rewrite !N.lor_0_r in H1, H2. fold val in H1, H2.
    rewrite H1, H2. reflexivity.
  - rewrite EncodeToString_3. cbv zeta. rewrite Decode_4.
    set (val := N.lor (N.lor (N.shiftl (byte a) 16) (N.shiftl (byte b) 8))
                  (byte c)).
    destruct (dec_enc (N.shiftr val 18)) as [-> _].
    destruct (dec_enc (N.shiftr val 12)) as [-> _].
    destruct (dec_enc (N.shiftr val 6)) as [-> ->].
    destruct (dec_enc val) as [-> ->].
    rewrite IH.
    destruct (group_decoded a b c) as (H1 & H2 & H3).
    cbv zeta in H1, H2, H3. fold val in H1, H2, H3.
    rewrite H1, H2, H3. reflexivity.
Qed.

(** X17: the encoding loses nothing: two byte strings with one encoding are
    the same, and [Decode] gives the bytes back. *)
Theorem EncodeToString_injective (src1 src2 : string) :
  EncodeToString src1 = EncodeToString src2 -> src1 = src2.
Proof.
  intros E. pose proof (Decode_EncodeToString src1) as H1.
  rewrite E, Decode_EncodeToString in H1. congruence.
Qed.

Lemma EncodeToString_injective_witness : "0123456789abcdef" = "0123456789abcdef".
Proof. apply EncodeToString_injective. reflexivity. Defined.

End Base64Facts.

(** ** The client for [Broker] resources *)

Section BrokersFacts.
Context {handles : Handles} {api : ApiTypes}.
Variable c : brokers.t.

(** Division and remainder by a constant, for [lia]. *)
Ltac Zify.zify_post_hook ::= Z.to_euclidean_division_equations.

Lemma int64_wrap_exact (z : Z) : int64_wrap z = z <-> int64_range z.
Proof.
  unfold int64_wrap, int64_range.
  change (2 ^ 63) with 9223372036854775808.
  change (2 ^ 64) with 18446744073709551616. lia.
Qed.

(** X18: [List], [Watch] and [DeleteCollection] set one timeout, computed
    from [TimeoutSeconds]: zero when that is nil, and otherwise the seconds
    times [time.Second] in 64 bits, which is that many nanoseconds exactly
    when the seconds are between -9223372036 and 9223372036; beyond, the
    product wraps around. *)
Theorem brokers_timeout (opts : ListOptions.t) :
  timeouts (brokers.List_request c opts) = [brokers.timeout_of opts] /\
  timeouts (brokers.Watch_request c opts) = [brokers.timeout_of opts] /\
  (forall options,
     timeouts (brokers.DeleteCollection_request c options opts)
     = [brokers.timeout_of opts]) /\
  (ListOptions.TimeoutSeconds opts = None -> brokers.timeout_of opts = 0) /\
  (forall seconds,
     ListOptions.TimeoutSeconds opts = Some seconds ->
     int64_range seconds ->
     int64_range (brokers.timeout_of opts) /\
     (brokers.timeout_of opts = seconds * 1000000000 <->
      -9223372036 <= seconds <= 9223372036)).
Proof.
  split; [reflexivity|]. split; [reflexivity|]. split; [reflexivity|].
  unfold brokers.timeout_of. split.
  - intros ->. reflexivity.
  - intros seconds -> Hrange. unfold Duration_mul, time_Second. split.
    + unfold int64_wrap, int64_range.
      change (2 ^ 63) with 9223372036854775808.
      change (2 ^ 64) with 18446744073709551616. lia.
    + rewrite int64_wrap_exact. unfold int64_range in *.
      change (2 ^ 63) with 9223372036854775808 in *. lia.
Qed.

(** X19: every request of a client made by [newBrokers] goes to the
    namespace the client was made for and to the resource ["brokers"]:
    these are its first two steps, and no later step names another
    namespace or resource. *)
Theorem brokers_address (RESTClient : rest.Interface) (namespace : string)
    (r : rest.Request) :
  brokers_request (newBrokers RESTClient namespace) r ->
  exists more,
    rest.steps r
    = rest.Namespace namespace :: rest.Resource "brokers" :: more /\
    forallb (fun step => negb (is_address step)) more = true.
Proof.
  intros [ | | | | | | | | ]; eexists; split; reflexivity.
Qed.

(** X20: [Watch] asks what [List] asks with the watch flag set: the flag
    of the caller is not looked at, and the selectors, the timeout and the
    address are those of [List]. *)
Theorem brokers_Watch_is_List (opts : ListOptions.t) :
  brokers.Watch_request c opts
  = brokers.List_request c
      {| ListOptions.selectors := ListOptions.selectors opts;
         ListOptions.Watch := true;
         ListOptions.TimeoutSeconds := ListOptions.TimeoutSeconds opts |} /\
  (forall opts',
     ListOptions.selectors opts' = ListOptions.selectors opts ->
     ListOptions.TimeoutSeconds opts' = ListOptions.TimeoutSeconds opts ->
     brokers.Watch_request c opts' = brokers.Watch_request c opts).
Proof.
  split; [reflexivity|].
  intros [sel' watch' timeout'] Hsel Htimeout. simpl in Hsel, Htimeout.
  subst. reflexivity.
Qed.

End BrokersFacts.

(** ** The further properties at work *)

Section MoreScenarioFacts.
Import Scenario ClientScenario.

(** X10 with the secret as [secret.Ensure] may return it: the name kept,
    the data filled in. *)
Lemma populateSubmarinerSpec_psk_name_witness :
  populateSubmarinerSpec (options "cluster1")
    (brokerInfo "submariner-ipsec-psk") brokerSecret
    (with_data "created" "yes" (psk "submariner-ipsec-psk")) netconfig
    repositoryInfo
  = populateSubmarinerSpec (options "cluster1")
      (brokerInfo "submariner-ipsec-psk") brokerSecret
      (psk "submariner-ipsec-psk") netconfig repositoryInfo.
Proof.
  apply (populateSubmarinerSpec_psk_name (options "cluster1")
           (brokerInfo "submariner-ipsec-psk") brokerSecret
           (psk "submariner-ipsec-psk") netconfig repositoryInfo).
  reflexivity.
Defined.

(** X12 in a deployment where both steps succeed. *)
Lemma Submariner_applies_returned_secret_witness :
  exists spec,
    log_of (deploy "cluster1" "submariner-ipsec-psk") !! 1%nat
    = Some (submarinercr_Ensure_call "submariner-operator" spec) /\
    log_of (deploy "cluster1" "submariner-ipsec-psk") !! 0%nat
    = Some (secret_Ensure_call "submariner-operator"
              (psk "submariner-ipsec-psk")) /\
    SubmarinerSpec.CeIPSecPSKSecret spec = "submariner-ipsec-psk" /\
    SubmarinerSpec.Namespace spec = "submariner-operator" /\
    SubmarinerSpec.CeIPSecPSK spec = "MDEyMzQ1Njc4OWFiY2RlZg==".
Proof.
  exact (Submariner_applies_returned_secret (handles := Scenario.handles)
           (externals := Scenario.externals)
           (constants := Scenario.constants) tt producer (options "cluster1")
           (brokerInfo "submariner-ipsec-psk") brokerSecret netconfig
           repositoryInfo terminal []
           ["secret submariner-operator/submariner-ipsec-psk"]
           (psk "submariner-ipsec-psk") eq_refl).
Defined.

(** X15 on a cluster that is reached. *)
Lemma GenericCluster_cleans_up_once_witness :
  log_of (GenericCluster "cluster1" terminal [])
  = [RunOnCluster_call "cluster1"; Cleanup_call;
     reporter_Error_call None "Failed to cleanup generic K8s cluster";
     reporter_End_call] /\
  world_after (GenericCluster "cluster1" terminal [])
  = ["gateway cleaned up"] /\
  result (GenericCluster "cluster1" terminal []) = None.
Proof.
  destruct (GenericCluster_cleans_up_once (handles := Scenario.handles)
              (externals := Scenario.externals)
              "cluster1" terminal deployer [] (fun _ _ => eq_refl))
    as (H1 & H2 & H3 & _).
  split; [exact H1|]. split; [exact H2|exact H3].
Defined.

(** X18 with a timeout of 30 seconds. *)
Lemma brokers_timeout_witness :
  timeouts (brokers.List_request client (listOptions (Some 30)))
  = [30000000000] /\
  brokers.timeout_of (listOptions (Some 30)) = 30 * 1000000000.
Proof.
  destruct (brokers_timeout (handles := Scenario.handles) client
              (listOptions (Some 30))) as (H1 & _ & _ & _ & H5).
  split; [exact H1|].
  destruct (H5 30 eq_refl) as [_ H]; [unfold int64_range; lia|].
  apply H. lia.
Defined.

(** X19 for the request of [Patch]. *)
Lemma brokers_address_witness :
  exists more,
    rest.steps
      (brokers.Patch_request client "broker" "application/merge-patch+json"
         "{}" ["status"])
    = rest.Namespace "submariner-k8s-broker"
      :: rest.Resource "brokers" :: more /\
    forallb (fun step => negb (is_address step)) more = true.
Proof.
  apply (brokers_address (handles := Scenario.handles) RESTClient
           "submariner-k8s-broker").
  apply (request_Patch client).
Defined.

End MoreScenarioFacts.
